(** * Image Metadata Extractor: the extraction pipeline of [meta.py]

    A shallow embedding of the five core functions of [meta.py]
    ([convert_gps], [extract_exif_metadata], [extract_hidden_metadata],
    the container-header block and [extract_image_metadata]) together with
    the properties of the pipeline.

    Conventions.
    - A Python [dict] with [str] keys is a [gmap string _]; [d.update(o)] is
      the right-biased union.  No property below depends on insertion order.
    - A Python [float] is an IEEE 754 binary64 value, [spec_float] with
      [prec = 53] and [emax = 1024].
    - A call that may raise returns a [result]; [try ... except Exception]
      is a match on it.
    - The collaborators (the filesystem, PIL, exifread, hachoir) are the
      fields of a [World]: what each of them answers for a path. *)

From Stdlib Require Import ZArith String Ascii List Bool Lia.
From Stdlib Require Import Floats.
From stdpp Require Import gmap strings pretty.

Local Open Scope Z_scope.
Local Open Scope string_scope.

(** ** Exceptions and results *)

Module Py.

Inductive exn_kind :=
| ZeroDivisionError
| ValueError
| AttributeError
| OverflowError
| TypeError
| OSError
| OtherError.

(** An exception object: its class and [str(e)]. *)
Record exn := Exn { exn_class : exn_kind; exn_str : string }.

Inductive result (A : Type) :=
| Ok (a : A)
| Raise (e : exn).
Arguments Ok {A} a.
Arguments Raise {A} e.

Definition bind {A B} (r : result A) (k : A -> result B) : result B :=
  match r with
  | Ok a => k a
  | Raise e => Raise e
  end.

Definition returns {A} (r : result A) : Prop := exists a, r = Ok a.

(** [[f(x) for x in l]]: left to right, stopping at the first exception. *)
Fixpoint comprehension {A B} (f : A -> result B) (l : list A) : result (list B) :=
  match l with
  | nil => Ok nil
  | x :: l' =>
      bind (f x) (fun y => bind (comprehension f l') (fun ys => Ok (y :: ys)))
  end.

End Py.

Import Py.

#[global] Instance result_ret : MRet result := fun _ a => Ok a.
#[global] Instance result_bind : MBind result := fun _ _ k r => Py.bind r k.

(** ** Python floats *)

Module PyFloat.

Abbreviation float := spec_float.

Definition fadd : float -> float -> float := SFadd prec emax.
Definition fdiv : float -> float -> float := SFdiv prec emax.
Definition fneg : float -> float := SFopp.
(** [x == y] on floats. *)
Definition feq : float -> float -> bool := SFeqb.

(** The nearest binary64 value to an integer (ties to even). *)
Definition of_Z (z : Z) : float := binary_normalize prec emax z 0 false.

Definition is_zero (x : float) : bool :=
  match x with S754_zero _ => true | _ => false end.

(** [float(z)] for a Python [int]. *)
Definition py_float (z : Z) : result float :=
  match of_Z z with
  | S754_infinity _ =>
      Raise (Exn OverflowError "int too large to convert to float")
  | f => Ok f
  end.

(** [x / y] on floats. *)
Definition py_truediv (x y : float) : result float :=
  if is_zero y then Raise (Exn ZeroDivisionError "float division by zero")
  else Ok (fdiv x y).

(** The literals [60.0] and [3600.0]. *)
Definition f60 : float := Eval vm_compute in of_Z 60.
Definition f3600 : float := Eval vm_compute in of_Z 3600.

End PyFloat.

Import PyFloat.

(** ** EXIF values *)

(** An element of a tag's value list.  Only [Ratio] objects have the
    attributes [num] and [den]. *)
Inductive PyElem :=
| ERatio (num den : Z)
| EInt (z : Z)
| EChar (c : ascii).

(** An [exifread] [IfdTag]: [str(tag)] is its [printable] field and
    [tag_values] is [list(tag.values)]. *)
Record IfdTag := { printable : string; tag_values : list PyElem }.

(** The first argument of [convert_gps]: a list, or an object with a
    [values] attribute. *)
Inductive GpsValue :=
| GList (l : list PyElem)
| GTag (t : IfdTag).

Definition attr_error (attr : string) : exn :=
  Exn AttributeError ("object has no attribute '" ++ attr ++ "'").

Definition elem_num (v : PyElem) : result Z :=
  match v with
  | ERatio n _ => Ok n
  | _ => Raise (attr_error "num")
  end.

Definition elem_den (v : PyElem) : result Z :=
  match v with
  | ERatio _ d => Ok d
  | _ => Raise (attr_error "den")
  end.

(** [float(v.num) / float(v.den)] *)
Definition elem_quotient (v : PyElem) : result float :=
  n ← elem_num v;
  fn ← py_float n;
  d ← elem_den v;
  fd ← py_float d;
  py_truediv fn fd.

(** The exception of [d, m, s = q] for a list [q] of [got] values. *)
Definition unpack_error (got : nat) : exn :=
  Exn ValueError
      (if (got <? 3)%nat
       then "not enough values to unpack (expected 3, got " ++ pretty got ++ ")"
       else "too many values to unpack (expected 3)").

(** ** [convert_gps] *)

(** [values if isinstance(values, list) else list(values.values)] *)
Definition gps_values (values : GpsValue) : list PyElem :=
  match values with
  | GList l => l
  | GTag t => tag_values t
  end.

Definition convert_to_degrees (values : GpsValue) : result float :=
  let values := gps_values values in
  q ← comprehension elem_quotient values;
  match q with
  | d :: m :: s :: nil =>
      minutes ← py_truediv m f60;
      seconds ← py_truediv s f3600;
      Ok (fadd (fadd d minutes) seconds)
  | _ => Raise (unpack_error (length q))
  end.

(** [ref in ["S", "W"]] *)
Definition ref_negates (ref : string) : bool :=
  String.eqb ref "S" || String.eqb ref "W".

Definition convert_gps (value : GpsValue) (ref : string) : result float :=
  degrees ← convert_to_degrees value;
  let degrees := if ref_negates ref then fneg degrees else degrees in
  Ok degrees.

(** ** Metadata records *)

(** The values stored in a metadata record. *)
Inductive PyVal :=
| VNone
| VStr (s : string)
| VInt (z : Z)
| VBytes (b : list Byte.byte)
| VTag (t : IfdTag).

Definition truthy (v : PyVal) : bool :=
  match v with
  | VNone => false
  | VStr s => negb (String.eqb s "")
  | VInt z => negb (Z.eqb z 0)
  | VBytes b => match b with nil => false | _ => true end
  | VTag _ => true
  end.

Abbreviation dict := (gmap string PyVal).

(** [d.update(other)]: the entries of [other] win. *)
Definition update (d other : dict) : dict := other ∪ d.

(** ** Collaborators *)

(** A PIL image as the header block reads it.  [img_bits] is [None] when
    the object has no attribute [bits]. *)
Record PILImage := {
  img_format : PyVal;
  img_mode : PyVal;
  img_width : Z;
  img_height : Z;
  img_bits : option PyVal;
  img_info : gmap string PyVal
}.

(** hachoir objects, as the results of the calls made on them.  For
    [createParser] and [extractMetadata] the answer [Ok None] stands for a
    falsy result, and for [exportPlaintext] for the value [None], which
    cannot be iterated. *)
Record HMetadata := { exportPlaintext : result (option (list string)) }.
Record HParser := { extractMetadata : result (option HMetadata) }.

Record World := {
  os_path_basename : string -> string;
  os_path_getsize : string -> result Z;
  os_path_getctime : string -> result float;
  os_path_getmtime : string -> result float;
  time_ctime : float -> string;
  (** the rendering of a float in an f-string *)
  float_str : float -> string;
  Image_open : string -> result PILImage;
  open_rb : string -> result (list Byte.byte);
  exifread_process_file : list Byte.byte -> result (gmap string IfdTag);
  hachoir_createParser : string -> result (option HParser)
}.

(** ** [extract_exif_metadata] *)

(** [for tag, value in tags.items(): metadata[tag] = str(value)] *)
Definition stringify_tags (tags : gmap string IfdTag) (metadata : dict) : dict :=
  map_fold (fun tag value md => <[tag := VStr (printable value)]> md) metadata tags.

(** [tags.get(key, "Unknown")]: the tag object itself when present. *)
Definition tag_or_unknown (tags : gmap string IfdTag) (key : string) : PyVal :=
  match tags !! key with
  | Some t => VTag t
  | None => VStr "Unknown"
  end.

Definition gps_entry (w : World) (tags : gmap string IfdTag) (metadata : dict)
  : result dict :=
  match tags !! "GPS GPSLatitude", tags !! "GPS GPSLongitude",
        tags !! "GPS GPSLatitudeRef", tags !! "GPS GPSLongitudeRef" with
  | Some gps_lat, Some gps_lon, Some lat_ref, Some lon_ref =>
      latitude ← convert_gps (GTag gps_lat) (printable lat_ref);
      longitude ← convert_gps (GTag gps_lon) (printable lon_ref);
      Ok (<["GPS Coordinates" :=
              VStr (float_str w latitude ++ ", " ++ float_str w longitude)]> metadata)
  | _, _, _, _ => Ok metadata
  end.

Definition extract_exif_metadata (w : World) (image_path : string) : result dict :=
  img_file ← open_rb w image_path;
  tags ← exifread_process_file w img_file;
  let metadata := stringify_tags tags ∅ in
  metadata ← gps_entry w tags metadata;
  let metadata := <["Camera Model" := tag_or_unknown tags "Image Model"]> metadata in
  let metadata := <["Software" := tag_or_unknown tags "Image Software"]> metadata in
  Ok metadata.

(** ** [extract_hidden_metadata] *)

(** The first occurrence of [sep] in [s]: the text before and after it. *)
Fixpoint split_first (sep s : string) : option (string * string) :=
  if String.prefix sep s
  then Some ("", String.substring (String.length sep)
                   (String.length s - String.length sep) s)
  else match s with
       | EmptyString => None
       | String c s' =>
           match split_first sep s' with
           | Some (a, b) => Some (String c a, b)
           | None => None
           end
       end.

(** [item.split(": ", 1) if ": " in item else (item, "Unknown")] *)
Definition split_item (item : string) : string * string :=
  match split_first ": " item with
  | Some kv => kv
  | None => (item, "Unknown")
  end.

Definition store_item (metadata : dict) (item : string) : dict :=
  let '(key, value) := split_item item in <[key := VStr value]> metadata.

(** How the body of a [try] ends. *)
Inductive control :=
| Completed
| Returned (d : dict)
| Raised (e : exn).

Definition not_iterable : exn :=
  Exn TypeError "'NoneType' object is not iterable".

(** The [try] body of [extract_hidden_metadata], from the dictionary
    [metadata] it fills: the dictionary when the body ends, and how it ends. *)
Definition hidden_body (w : World) (file_path : string) (metadata : dict)
  : dict * control :=
  match hachoir_createParser w file_path with
  | Raise e => (metadata, Raised e)
  | Ok None =>
      (metadata, Returned {[ "Hidden Metadata" := VStr "Unable to parse" ]})
  | Ok (Some parser) =>
      match extractMetadata parser with
      | Raise e => (metadata, Raised e)
      | Ok None => (metadata, Completed)
      | Ok (Some metadata_extractor) =>
          match exportPlaintext metadata_extractor with
          | Raise e => (metadata, Raised e)
          | Ok None => (metadata, Raised not_iterable)
          | Ok (Some lines) => (foldl store_item metadata lines, Completed)
          end
      end
  end.

Definition extract_hidden_metadata (w : World) (file_path : string) : dict :=
  let '(metadata, c) := hidden_body w file_path ∅ in
  match c with
  | Returned d => d
  | Raised e => <["Hidden Metadata Error" := VStr (exn_str e)]> metadata
  | Completed => metadata
  end.

(** ** [extract_image_metadata] *)

(** The dictionary display of the four filesystem attributes. *)
Definition seed (w : World) (image_path : string) : result dict :=
  let name := os_path_basename w image_path in
  size ← os_path_getsize w image_path;
  ctime ← os_path_getctime w image_path;
  mtime ← os_path_getmtime w image_path;
  Ok (<["Modification Time" := VStr (time_ctime w mtime)]>
      (<["Creation Time" := VStr (time_ctime w ctime)]>
       (<["File Size (bytes)" := VInt size]>
        (<["File Name" := VStr name]> ∅)))).

(** The [try]/[except] block around [Image.open]. *)
Definition header_stage (w : World) (image_path : string) (metadata : dict) : dict :=
  match Image_open w image_path with
  | Ok img =>
      let metadata := <["Format" := img_format img]> metadata in
      let metadata := <["Mode" := img_mode img]> metadata in
      let metadata :=
        <["Size (pixels)" :=
            VStr (pretty (img_width img) ++ "x" ++ pretty (img_height img))]> metadata in
      let metadata :=
        <["Bit Depth" := default (VStr "Unknown") (img_bits img)]> metadata in
      let metadata :=
        <["Compression" := default (VStr "None") (img_info img !! "compression")]>
          metadata in
      <["ICC Profile" :=
          VStr (if truthy (default VNone (img_info img !! "icc_profile"))
                then "Present" else "None")]> metadata
  | Raise e => <["PIL Error" := VStr (exn_str e)]> metadata
  end.

(** [s.lower()] on the bytes of a path.  Only the letters [A] to [Z]
    lowercase to ASCII letters, and no byte of a longer UTF-8 sequence is an
    ASCII letter, so the test for the suffix [.heic] reads the same on the
    bytes as on the code points. *)
Definition ascii_lower (c : ascii) : ascii :=
  let n := nat_of_ascii c in
  if ((65 <=? n) && (n <=? 90))%nat then ascii_of_nat (n + 32) else c.

Fixpoint lower (s : string) : string :=
  match s with
  | EmptyString => EmptyString
  | String c s' => String (ascii_lower c) (lower s')
  end.

(** [s.endswith(suffix)]: [s] is [suffix], or its tail ends with [suffix]. *)
Fixpoint endswith (s suffix : string) : bool :=
  if String.eqb s suffix then true
  else match s with
       | EmptyString => false
       | String _ s' => endswith s' suffix
       end.

Definition is_heic (image_path : string) : bool :=
  endswith (lower image_path) ".heic".

Definition exif_stage (w : World) (image_path : string) (metadata : dict)
  : result dict :=
  if negb (is_heic image_path)
  then exif ← extract_exif_metadata w image_path; Ok (update metadata exif)
  else Ok metadata.

Definition extract_image_metadata (w : World) (image_path : string) : result dict :=
  metadata ← seed w image_path;
  let metadata := header_stage w image_path metadata in
  metadata ← exif_stage w image_path metadata;
  let metadata := update metadata (extract_hidden_metadata w image_path) in
  Ok metadata.

(** ** The keys of the first two stages *)

Definition seed_keys : list string :=
  ["File Name"; "File Size (bytes)"; "Creation Time"; "Modification Time"].

Definition header_keys : list string :=
  ["Format"; "Mode"; "Size (pixels)"; "Bit Depth"; "Compression";
   "ICC Profile"; "PIL Error"].

Ltac not_in_keys H :=
  unfold seed_keys, header_keys in H;
  repeat (apply not_elem_of_cons in H; destruct H as [? H]).

(** ** Valid coordinates *)

(** The magnitude below which the components of a rational are taken.
    The components of an EXIF RATIONAL or SRATIONAL are 32-bit integers and
    lie far below it; from [2 ^ 1024] on, [float] raises [OverflowError]. *)
Definition component_bound : Z := 2 ^ 512.

Definition valid_component (z : Z) : Prop := Z.abs z < component_bound.

(** A rational with a non-zero denominator. *)
Definition valid_ratio (num den : Z) : Prop :=
  den <> 0 /\ valid_component num /\ valid_component den.

(** [float(num) / float(den)] *)
Definition quotient (num den : Z) : float := fdiv (of_Z num) (of_Z den).

(** [d + m / 60.0 + s / 3600.0] *)
Definition degrees_of (d m s : float) : float :=
  fadd (fadd d (fdiv m f60)) (fdiv s f3600).

(** ** Magnitudes of floats *)

(** Zero, or finite and below [2 ^ K] in magnitude. *)
Definition fin_hi (K : Z) (x : float) : Prop :=
  match x with
  | S754_zero _ => True
  | S754_finite _ m e => Z.pos (digits2_pos m) + e <= K
  | _ => False
  end.

(** Finite, not zero, with an exponent of at least [lo]. *)
Definition fin_lo (lo : Z) (x : float) : Prop :=
  match x with
  | S754_finite _ m e => lo <= e
  | _ => False
  end.

(** The number of bits that [shr_fexp] drops from a mantissa. *)
Definition fexp_shift (m e : Z) : Z :=
  Z.max 0 (Z.max (Zdigits2 m + e - 53) (-1074) - e).

(** ** Further notions for the converter *)

(** An element that is a rational with a non-zero denominator. *)
Definition valid_elem (v : PyElem) : Prop :=
  exists num den, v = ERatio num den /\ valid_ratio num den.

(** Neither infinite nor NaN. *)
Definition finite (x : float) : bool :=
  match x with
  | S754_zero _ | S754_finite _ _ _ => true
  | _ => false
  end.

(** Not NaN, with the given sign bit. *)
Definition sign_is (s : bool) (x : float) : Prop :=
  match x with
  | S754_zero s' | S754_infinity s' | S754_finite s' _ _ => s' = s
  | S754_nan => False
  end.

(** [x <= y] on floats. *)
Definition fle : float -> float -> bool := SFleb.

(** ** Concrete worlds *)

Module Worlds.

(** A Ratio-valued tag and an ASCII-valued tag. *)
Definition ratio_tag (text : string) (l : list (Z * Z)) : IfdTag :=
  {| printable := text; tag_values := map (fun '(n, d) => ERatio n d) l |}.

Definition ascii_tag (text : string) : IfdTag :=
  {| printable := text; tag_values := map EChar (list_ascii_of_string text) |}.

Definition png_header : PILImage :=
  {| img_format := VStr "PNG"; img_mode := VStr "RGB";
     img_width := 640; img_height := 480;
     img_bits := None; img_info := ∅ |}.

(** A file that can be read, with the given EXIF tags and the given
    answer of hachoir. *)
Definition readable (tags : gmap string IfdTag)
    (parser : result (option HParser)) : World :=
  {| os_path_basename := fun p => p;
     os_path_getsize := fun _ => Ok 2048;
     os_path_getctime := fun _ => Ok (of_Z 0);
     os_path_getmtime := fun _ => Ok (of_Z 0);
     time_ctime := fun _ => "Thu Jan  1 00:00:00 1970";
     float_str := fun x => if is_zero x then "0.0" else "<float>";
     Image_open := fun _ => Ok png_header;
     open_rb := fun _ => Ok nil;
     exifread_process_file := fun _ => Ok tags;
     hachoir_createParser := fun _ => parser |}.

Definition plaintext (lines : list string) : result (option HParser) :=
  Ok (Some {| extractMetadata :=
                Ok (Some {| exportPlaintext := Ok (Some lines) |}) |}).

(** No EXIF segment, nothing for hachoir to report. *)
Definition sparse : World := readable ∅ (Ok None).

Definition gps_tags (lat_text : string) (lat : list (Z * Z))
  : gmap string IfdTag :=
  <["GPS GPSLatitude" := ratio_tag lat_text lat]>
  (<["GPS GPSLongitude" := ratio_tag "[77, 35, 0]" [(77, 1); (35, 1); (0, 1)]]>
  (<["GPS GPSLatitudeRef" := ascii_tag "N"]>
  (<["GPS GPSLongitudeRef" := ascii_tag "E"]> ∅))).

(** A latitude whose seconds are the rational 0/0. *)
Definition zero_den : World :=
  readable (gps_tags "[12, 58, 0/0]" [(12, 1); (58, 1); (0, 0)]) (Ok None).

(** A latitude with two components only. *)
Definition short_lat : World :=
  readable (gps_tags "[12, 58]" [(12, 1); (58, 1)]) (Ok None).

(** hachoir fails while building the parser. *)
Definition parser_fails : World :=
  readable ∅ (Raise (Exn OtherError "unable to open stream")).

(** The three stages all write the key [Format]. *)
Definition colliding : World :=
  readable {[ "Format" := ascii_tag "from exif" ]}
           (plaintext ["Format: from hachoir"; "Comment"]).

End Worlds.

(** ** [save_metadata_to_file] and [browse_file] *)

(** What the report writer and the file dialog meet: the answer of the
    dialog (the empty string when it is cancelled), whether the report file
    can be opened for writing, whether the viewer can be started, the
    entries of a dictionary in the order of its insertions, and the [repr]
    of a [bytes] object. *)
Record Shell := {
  askopenfilename : string;
  open_w : string -> result unit;
  os_startfile : string -> result unit;
  dict_items : dict -> list (string * PyVal);
  bytes_repr : list Byte.byte -> string
}.

(** [dict_items] lists every entry of a dictionary once. *)
Definition items_faithful (sh : Shell) : Prop :=
  forall d : dict,
    NoDup (dict_items sh d).*1 /\ list_to_map (dict_items sh d) = d.

(** The files, as texts, and the files handed to the viewer, oldest first. *)
Record Desktop := { files : gmap string string; started : list string }.

(** [str(value)], as an f-string formats a value. *)
Definition py_str (sh : Shell) (value : PyVal) : string :=
  match value with
  | VNone => "None"
  | VStr s => s
  | VInt z => pretty z
  | VBytes b => bytes_repr sh b
  | VTag t => printable t
  end.

Definition newline : string := String "010"%char "".

(** [f"{key}: {value}\n"] *)
Definition report_line (sh : Shell) (entry : string * PyVal) : string :=
  fst entry ++ ": " ++ py_str sh (snd entry) ++ newline.

(** The text that the loop of [save_metadata_to_file] writes. *)
Definition report_text (sh : Shell) (metadata : dict) : string :=
  foldl (fun text entry => text ++ report_line sh entry) ""
        (dict_items sh metadata).

(** The desktop after the call, and how the call ends. *)
Definition save_metadata_to_file (sh : Shell) (metadata : dict)
    (output_file : string) (st : Desktop) : Desktop * result unit :=
  match open_w sh output_file with
  | Raise e => (st, Raise e)
  | Ok _ =>
      let st :=
        {| files := <[output_file := report_text sh metadata]> (files st);
           started := started st |} in
      match os_startfile sh output_file with
      | Raise e => (st, Raise e)
      | Ok _ =>
          ({| files := files st; started := started st ++ [output_file] |},
           Ok tt)
      end
  end.

Definition browse_file (w : World) (sh : Shell) (st : Desktop)
  : Desktop * result unit :=
  let file_path := askopenfilename sh in
  if negb (String.eqb file_path "")
  then match extract_image_metadata w file_path with
       | Ok metadata => save_metadata_to_file sh metadata "metadata.txt" st
       | Raise e => (st, Raise e)
       end
  else (st, Ok tt).

(** ** Further concrete worlds *)

Module MoreWorlds.

(** A photograph taken at 12 deg 58' 30'' N, 77 deg 35' 0'' E. *)
Definition located_tags : gmap string IfdTag :=
  Worlds.gps_tags "[12, 58, 30]" [(12, 1); (58, 1); (30, 1)].

Definition located : World := Worlds.readable located_tags (Ok None).

(** hachoir builds a parser and finds no metadata. *)
Definition no_metadata : World :=
  Worlds.readable ∅ (Ok (Some {| extractMetadata := Ok None |})).

(** hachoir reports the same key twice. *)
Definition repeated : World :=
  Worlds.readable ∅
    (Worlds.plaintext ["Metadata:"; "- Comment: first"; "- Comment: second"]).


(** PIL cannot identify the file. *)
Definition undecodable : World :=
  {| os_path_basename := fun p => p;
     os_path_getsize := fun _ => Ok 12;
     os_path_getctime := fun _ => Ok (of_Z 0);
     os_path_getmtime := fun _ => Ok (of_Z 0);
     time_ctime := fun _ => "Thu Jan  1 00:00:00 1970";
     float_str := fun _ => "";
     Image_open := fun _ => Raise (Exn OtherError "cannot identify image file");
     open_rb := fun _ => Ok nil;
     exifread_process_file := fun _ => Ok ∅;
     hachoir_createParser := fun _ => Ok None |}.

(** A desktop on which the report can be written and shown, after the
    user chose [choice]. *)
Definition helpful (choice : string) : Shell :=
  {| askopenfilename := choice;
     open_w := fun _ => Ok tt;
     os_startfile := fun _ => Ok tt;
     dict_items := map_to_list;
     bytes_repr := fun _ => "b'...'" |}.


Definition old_desk : Desktop :=
  {| files := {[ "metadata.txt" := "old report"; "notes.txt" := "keep" ]};
     started := [] |}.

End MoreWorlds.

(** ** Binary64 arithmetic *)

Local Close Scope string_scope.

Section Digits.

Lemma digits2_pos_size (p : positive) : digits2_pos p = Pos.size p.
Proof. induction p; cbn; congruence. Qed.

Lemma Zdigits2_nonneg (m : Z) : 0 <= Zdigits2 m.
Proof. destruct m; cbn; lia. Qed.

Lemma pos_lt_pow2_digits (p : positive) : Z.pos p < 2 ^ Z.pos (digits2_pos p).
Proof.
  rewrite digits2_pos_size. pose proof (Pos.size_gt p) as H.
  apply Pos2Z.pos_lt_pos in H. rewrite Pos2Z.inj_pow in H. exact H.
Qed.

Lemma pow2_digits_le_pos (p : positive) : 2 ^ (Z.pos (digits2_pos p) - 1) <= Z.pos p.
Proof.
  rewrite digits2_pos_size. pose proof (Pos.size_le p) as H.
  apply Pos2Z.pos_le_pos in H. rewrite Pos2Z.inj_pow in H.
  replace (Z.pos (Pos.size p)) with (Z.succ (Z.pos (Pos.size p) - 1)) in H by lia.
  rewrite Z.pow_succ_r in H by lia. lia.
Qed.

Lemma Zdigits2_upper (m k : Z) : 0 <= m -> 0 <= k -> m < 2 ^ k -> Zdigits2 m <= k.
Proof.
  intros Hm Hk Hlt. destruct m as [|p|p]; cbn; [lia| |lia].
  destruct (Z_le_gt_dec (Z.pos (digits2_pos p)) k) as [|Hgt]; [lia|].
  pose proof (pow2_digits_le_pos p).
  assert (2 ^ k <= 2 ^ (Z.pos (digits2_pos p) - 1)) by (apply Z.pow_le_mono_r; lia).
  lia.
Qed.

Lemma Zdigits2_lower (m k : Z) : 2 ^ k <= m -> 0 <= k -> k + 1 <= Zdigits2 m.
Proof.
  intros Hle Hk. assert (0 < 2 ^ k) by (apply Z.pow_pos_nonneg; lia).
  destruct m as [|p|p]; try lia. cbn.
  destruct (Z_le_gt_dec (k + 1) (Z.pos (digits2_pos p))) as [|Hgt]; [lia|].
  pose proof (pos_lt_pow2_digits p).
  assert (2 ^ Z.pos (digits2_pos p) <= 2 ^ k) by (apply Z.pow_le_mono_r; lia).
  lia.
Qed.

Lemma Zdigits2_lt_pow2 (m : Z) : 0 <= m -> m < 2 ^ Zdigits2 m.
Proof.
  destruct m as [|p|p]; cbn; [lia| |lia]. intros _. apply pos_lt_pow2_digits.
Qed.

End Digits.

Section Rounding.

Lemma fexp_eq (e : Z) : fexp prec emax e = Z.max (e - 53) (-1074).
Proof. reflexivity. Qed.

Lemma shr_1_m (mrs : shr_record) :
  0 <= shr_m mrs -> shr_m (shr_1 mrs) = shr_m mrs / 2.
Proof.
  destruct mrs as [m r s]. cbn [shr_m]. intros Hm.
  rewrite <- Z.div2_div. destruct m as [|[p|p|]|p]; try reflexivity; lia.
Qed.

Lemma pow2_xO (p : positive) : 2 ^ Z.pos p~0 = 2 ^ Z.pos p * 2 ^ Z.pos p.
Proof.
  replace (Z.pos p~0) with (Z.pos p + Z.pos p) by lia.
  apply Z.pow_add_r; lia.
Qed.

Lemma pow2_xI (p : positive) : 2 ^ Z.pos p~1 = 2 * (2 ^ Z.pos p * 2 ^ Z.pos p).
Proof.
  replace (Z.pos p~1) with (1 + (Z.pos p + Z.pos p)) by lia.
  rewrite Z.pow_add_r, Z.pow_add_r by lia. reflexivity.
Qed.

Lemma iter_shr_1_m (p : positive) (mrs : shr_record) :
  0 <= shr_m mrs ->
  shr_m (SpecFloat.iter_pos shr_1 p mrs) = shr_m mrs / 2 ^ Z.pos p.
Proof.
  revert mrs.
  induction p as [p IH|p IH|]; intros mrs Hm; cbn [SpecFloat.iter_pos].
  - assert (H2 : 0 <= shr_m (shr_1 mrs))
      by (rewrite shr_1_m by done; apply Z.div_pos; lia).
    assert (Hp : 0 < 2 ^ Z.pos p) by (apply Z.pow_pos_nonneg; lia).
    assert (H3 : 0 <= shr_m (SpecFloat.iter_pos shr_1 p (shr_1 mrs)))
      by (rewrite IH by done; apply Z.div_pos; lia).
    rewrite IH, IH, shr_1_m by done.
    rewrite !Z.div_div by lia. by rewrite pow2_xI.
  - assert (Hp : 0 < 2 ^ Z.pos p) by (apply Z.pow_pos_nonneg; lia).
    assert (H3 : 0 <= shr_m (SpecFloat.iter_pos shr_1 p mrs))
      by (rewrite IH by done; apply Z.div_pos; lia).
    rewrite IH, IH by done.
    rewrite !Z.div_div by lia. by rewrite pow2_xO.
  - apply shr_1_m. done.
Qed.

Lemma shr_spec (mrs : shr_record) (e n : Z) :
  0 <= shr_m mrs ->
  shr_m (fst (shr mrs e n)) = shr_m mrs / 2 ^ Z.max 0 n
  /\ snd (shr mrs e n) = e + Z.max 0 n.
Proof.
  intros Hm. destruct n as [|p|p]; cbn [shr fst snd].
  - change (Z.max 0 0) with 0. rewrite Z.div_1_r. lia.
  - rewrite iter_shr_1_m by done.
    replace (Z.max 0 (Z.pos p)) with (Z.pos p) by lia. done.
  - replace (Z.max 0 (Z.neg p)) with 0 by lia. rewrite Z.div_1_r. lia.
Qed.

Lemma shr_m_of_loc (m : Z) (l : location) : shr_m (shr_record_of_loc m l) = m.
Proof. destruct l as [|[]]; reflexivity. Qed.

Lemma shr_fexp_spec (m e : Z) (l : location) :
  0 <= m ->
  shr_m (fst (shr_fexp prec emax m e l)) = m / 2 ^ fexp_shift m e
  /\ snd (shr_fexp prec emax m e l) = e + fexp_shift m e.
Proof.
  intros Hm. unfold shr_fexp. rewrite fexp_eq.
  pose proof (shr_spec (shr_record_of_loc m l) e
                (Z.max (Zdigits2 m + e - 53) (-1074) - e)) as H.
  rewrite shr_m_of_loc in H. apply H. done.
Qed.

Lemma shr_fexp_bounds (m e : Z) (l : location) (K : Z) :
  0 <= m -> Zdigits2 m + e <= K -> e <= K -> -1074 <= K ->
  0 <= shr_m (fst (shr_fexp prec emax m e l))
  /\ e <= snd (shr_fexp prec emax m e l) <= K
  /\ Zdigits2 (shr_m (fst (shr_fexp prec emax m e l)))
       + snd (shr_fexp prec emax m e l) <= K.
Proof.
  intros Hm Hd He HK.
  destruct (shr_fexp_spec m e l Hm) as [-> ->].
  pose proof (Zdigits2_nonneg m) as Hd0.
  set (n := fexp_shift m e).
  assert (Hn : 0 <= n) by (unfold n, fexp_shift; lia).
  assert (Hp : 0 < 2 ^ n) by (apply Z.pow_pos_nonneg; lia).
  assert (Hq : 0 <= m / 2 ^ n) by (apply Z.div_pos; lia).
  split; [done|]. split; [unfold n, fexp_shift in *; lia|].
  destruct (Z_le_gt_dec n (Zdigits2 m)) as [Hle|Hgt].
  - assert (Zdigits2 (m / 2 ^ n) <= Zdigits2 m - n); [|lia].
    apply Zdigits2_upper; [done|lia|].
    apply Z.div_lt_upper_bound; [lia|].
    rewrite <- Z.pow_add_r by lia.
    replace (n + (Zdigits2 m - n)) with (Zdigits2 m) by lia.
    by apply Zdigits2_lt_pow2.
  - assert (m / 2 ^ n = 0) as ->.
    { apply Z.div_small. split; [done|].
      pose proof (Zdigits2_lt_pow2 m Hm).
      assert (2 ^ Zdigits2 m <= 2 ^ n) by (apply Z.pow_le_mono_r; lia). lia. }
    cbn [Zdigits2]. unfold n, fexp_shift in *. lia.
Qed.

Lemma shr_fexp_pos (m e : Z) (l : location) :
  0 < m -> -1074 < Zdigits2 m + e ->
  0 < shr_m (fst (shr_fexp prec emax m e l))
  /\ Zdigits2 m + e
       <= Zdigits2 (shr_m (fst (shr_fexp prec emax m e l)))
          + snd (shr_fexp prec emax m e l).
Proof.
  intros Hm Hd.
  destruct (shr_fexp_spec m e l) as [-> ->]; [lia|].
  set (n := fexp_shift m e).
  assert (Hn : 0 <= n) by (unfold n, fexp_shift; lia).
  assert (Hd1 : 1 <= Zdigits2 m) by (destruct m; cbn; lia).
  assert (Hlt : n <= Zdigits2 m - 1) by (unfold n, fexp_shift; lia).
  assert (Hp : 0 < 2 ^ n) by (apply Z.pow_pos_nonneg; lia).
  assert (Hlow : 2 ^ (Zdigits2 m - 1 - n) <= m / 2 ^ n).
  { apply Z.div_le_lower_bound; [lia|].
    rewrite <- Z.pow_add_r by lia.
    replace (n + (Zdigits2 m - 1 - n)) with (Zdigits2 m - 1) by lia.
    destruct m as [|p|p]; try lia. apply pow2_digits_le_pos. }
  assert (0 < 2 ^ (Zdigits2 m - 1 - n)) by (apply Z.pow_pos_nonneg; lia).
  split; [lia|].
  pose proof (Zdigits2_lower _ _ Hlow). lia.
Qed.

Lemma round_nearest_even_range (m : Z) (l : location) :
  m <= round_nearest_even m l <= m + 1.
Proof.
  unfold round_nearest_even.
  destruct l as [|[]]; try lia. destruct (Z.even m); lia.
Qed.

Lemma Zdigits2_succ (m : Z) (r : Z) :
  0 <= m -> m <= r <= m + 1 -> Zdigits2 r <= Zdigits2 m + 1.
Proof.
  intros Hm Hr. pose proof (Zdigits2_nonneg m).
  apply Zdigits2_upper; [lia|lia|].
  pose proof (Zdigits2_lt_pow2 m Hm).
  rewrite Z.pow_add_r by lia. change (2 ^ 1) with 2. lia.
Qed.

Lemma Zdigits2_mono (m r : Z) : 0 < m -> m <= r -> Zdigits2 m <= Zdigits2 r.
Proof.
  intros Hm Hr. destruct m as [|p|p]; try lia.
  pose proof (pow2_digits_le_pos p).
  assert (Z.pos (digits2_pos p) - 1 + 1 <= Zdigits2 r); [|cbn; lia].
  apply Zdigits2_lower; lia.
Qed.

End Rounding.

Section RoundAux.

(** The mantissa and the exponent that [binary_round_aux] ends with. *)
Lemma binary_round_aux_spec (sx : bool) (mz ez : Z) (lz : location) :
  0 <= mz ->
  exists m3 e3,
    binary_round_aux prec emax sx mz ez lz
      = match m3 with
        | Z0 => S754_zero sx
        | Zpos m => if e3 <=? 971 then S754_finite sx m e3 else S754_infinity sx
        | Zneg _ => S754_nan
        end
    /\ 0 <= m3
    /\ ez <= e3
    /\ (forall M, Zdigits2 mz + ez <= M -> ez <= M -> -1074 <= M ->
                  e3 <= M + 1 /\ Zdigits2 m3 + e3 <= M + 1)
    /\ (0 < mz -> -1074 < Zdigits2 mz + ez -> 0 < m3).
Proof.
  intros Hmz. unfold binary_round_aux.
  pose proof (shr_fexp_spec mz ez lz Hmz) as [Hm1 He1].
  pose proof (fun K => shr_fexp_bounds mz ez lz K Hmz) as Hb1.
  pose proof (shr_fexp_pos mz ez lz) as Hp1.
  destruct (shr_fexp prec emax mz ez lz) as [mrs1 e1]. cbn [fst snd] in *.
  set (m2 := round_nearest_even (shr_m mrs1) (loc_of_shr_record mrs1)).
  pose proof (round_nearest_even_range (shr_m mrs1) (loc_of_shr_record mrs1))
    as Hr. fold m2 in Hr.
  assert (Hm1' : 0 <= shr_m mrs1).
  { rewrite Hm1. apply Z.div_pos; [done|]. apply Z.pow_pos_nonneg; [lia|].
    unfold fexp_shift. lia. }
  assert (Hm2 : 0 <= m2) by lia.
  pose proof (fun K => shr_fexp_bounds m2 e1 loc_Exact K Hm2) as Hb2.
  pose proof (shr_fexp_pos m2 e1 loc_Exact) as Hp2.
  pose proof (shr_fexp_spec m2 e1 loc_Exact Hm2) as [Hm3 He3].
  destruct (shr_fexp prec emax m2 e1 loc_Exact) as [mrs2 e2].
  cbn [fst snd] in *.
  exists (shr_m mrs2), e2. split; [reflexivity|].
  assert (Hm3' : 0 <= shr_m mrs2).
  { rewrite Hm3. apply Z.div_pos; [done|]. apply Z.pow_pos_nonneg; [lia|].
    unfold fexp_shift. lia. }
  split; [done|].
  assert (He12 : ez <= e1 /\ e1 <= e2).
  { rewrite He3, He1. unfold fexp_shift. lia. }
  split; [lia|]. split.
  - intros M HM1 HM2 HM3.
    destruct (Hb1 M HM1 HM2 HM3) as (_ & [_ Hx] & Hy).
    pose proof (Zdigits2_succ (shr_m mrs1) m2 Hm1' Hr).
    destruct (Hb2 (M + 1)) as (_ & [_ Hx2] & Hy2); lia.
  - intros Hpos Hmag. destruct (Hp1 Hpos Hmag) as [Hq1 Hq2].
    assert (Hd : Zdigits2 (shr_m mrs1) <= Zdigits2 m2)
      by (apply Zdigits2_mono; lia).
    destruct Hp2 as [Hq3 _]; lia.
Qed.

Lemma binary_round_aux_not_nan (sx : bool) (mz ez : Z) (lz : location) :
  0 <= mz -> binary_round_aux prec emax sx mz ez lz <> S754_nan.
Proof.
  intros Hmz.
  destruct (binary_round_aux_spec sx mz ez lz Hmz) as (m3 & e3 & -> & H & _).
  destruct m3 as [|m|m]; [done| |lia]. by destruct (e3 <=? 971).
Qed.

Lemma binary_round_aux_hi (sx : bool) (mz ez : Z) (lz : location) (M : Z) :
  0 <= mz -> Zdigits2 mz + ez <= M -> ez <= M -> -1074 <= M <= 970 ->
  fin_hi (M + 1) (binary_round_aux prec emax sx mz ez lz).
Proof.
  intros Hmz H1 H2 H3.
  destruct (binary_round_aux_spec sx mz ez lz Hmz)
    as (m3 & e3 & -> & H & _ & Hb & _).
  destruct (Hb M) as [Hb1 Hb2]; [lia..|].
  destruct m3 as [|m|m]; [done| |lia].
  replace (e3 <=? 971) with true by (symmetry; apply Z.leb_le; lia).
  exact Hb2.
Qed.

Lemma binary_round_aux_lo (sx : bool) (mz ez : Z) (lz : location) (M : Z) :
  0 < mz -> -1074 < Zdigits2 mz + ez ->
  Zdigits2 mz + ez <= M -> ez <= M -> M <= 970 ->
  fin_lo ez (binary_round_aux prec emax sx mz ez lz).
Proof.
  intros Hmz Hmag H1 H2 H3.
  destruct (binary_round_aux_spec sx mz ez lz)
    as (m3 & e3 & -> & H & He & Hb & Hp); [lia|].
  destruct (Hb M) as [Hb1 Hb2]; [lia..|].
  specialize (Hp Hmz Hmag).
  destruct m3 as [|m|m]; [lia| |lia].
  replace (e3 <=? 971) with true by (symmetry; apply Z.leb_le; lia).
  exact He.
Qed.

End RoundAux.

Section Operations.

Lemma fin_lo_weaken (lo lo' : Z) (x : spec_float) :
  fin_lo lo x -> lo' <= lo -> fin_lo lo' x.
Proof. destruct x; cbn; lia. Qed.

Lemma iter_xO (mx d : positive) :
  Z.pos (Pos.iter xO mx d) = Z.pos mx * 2 ^ Z.pos d.
Proof.
  induction d as [|d IH] using Pos.peano_ind.
  - cbn [Pos.iter]. lia.
  - rewrite Pos.iter_succ, Pos2Z.inj_succ, Z.pow_succ_r by lia.
    rewrite Pos2Z.inj_xO, IH. lia.
Qed.

(** [shl_align] keeps the value and does not raise the exponent. *)
Lemma shl_align_spec (mx : positive) (ex ex' : Z) :
  snd (shl_align mx ex ex') = Z.min ex ex'
  /\ Z.pos (fst (shl_align mx ex ex'))
       = Z.pos mx * 2 ^ (ex - snd (shl_align mx ex ex')).
Proof.
  unfold shl_align. destruct (ex' - ex) as [|d|d] eqn:Hd; cbn [fst snd].
  - split; [lia|]. rewrite Z.sub_diag. lia.
  - split; [lia|]. rewrite Z.sub_diag. lia.
  - split; [lia|]. rewrite iter_xO. do 2 f_equal. lia.
Qed.

Lemma digits_mul_pow2 (m : positive) (k : Z) (r : positive) :
  0 <= k -> Z.pos r = Z.pos m * 2 ^ k ->
  Z.pos (digits2_pos r) = Z.pos (digits2_pos m) + k.
Proof.
  intros Hk Hr. apply Z.le_antisymm.
  - apply (Zdigits2_upper (Z.pos r)); [lia|lia|].
    rewrite Hr, Z.pow_add_r by lia.
    pose proof (pos_lt_pow2_digits m).
    assert (0 < 2 ^ k) by (apply Z.pow_pos_nonneg; lia). nia.
  - assert (Z.pos (digits2_pos m) - 1 + k + 1 <= Zdigits2 (Z.pos r));
      [|cbn [Zdigits2] in *; lia].
    apply Zdigits2_lower; [|lia].
    rewrite Hr, Z.pow_add_r by lia.
    pose proof (pow2_digits_le_pos m).
    assert (0 < 2 ^ k) by (apply Z.pow_pos_nonneg; lia). nia.
Qed.

Lemma binary_round_hi_lo (sx : bool) (p : positive) (B : Z) :
  Z.pos p < 2 ^ B -> 0 <= B <= 970 ->
  fin_hi (B + 1) (binary_round prec emax sx p 0)
  /\ fin_lo (-52) (binary_round prec emax sx p 0).
Proof.
  intros Hp HB. unfold binary_round. rewrite fexp_eq.
  pose proof (shl_align_spec p 0 (Z.max (Z.pos (digits2_pos p) + 0 - 53) (-1074)))
    as [He Hm].
  destruct (shl_align p 0 (Z.max (Z.pos (digits2_pos p) + 0 - 53) (-1074)))
    as [mz ez]. cbn [fst snd] in *.
  assert (Hd : Z.pos (digits2_pos p) <= B).
  { apply (Zdigits2_upper (Z.pos p)); lia. }
  assert (Hdz : Z.pos (digits2_pos mz) = Z.pos (digits2_pos p) + (0 - ez)).
  { apply digits_mul_pow2; [lia|done]. }
  split.
  - apply binary_round_aux_hi; cbn [Zdigits2]; lia.
  - apply fin_lo_weaken with ez; [|lia].
    apply binary_round_aux_lo with B; cbn [Zdigits2]; lia.
Qed.

Lemma of_Z_hi (z B : Z) :
  Z.abs z < 2 ^ B -> 0 <= B <= 970 -> fin_hi (B + 1) (of_Z z).
Proof.
  intros Hz HB. destruct z as [|p|p]; [done|..];
    apply binary_round_hi_lo; lia.
Qed.

Lemma of_Z_lo (z B : Z) :
  z <> 0 -> Z.abs z < 2 ^ B -> 0 <= B <= 970 -> fin_lo (-52) (of_Z z).
Proof.
  intros Hz0 Hz HB. destruct z as [|p|p]; [done|..];
    apply (binary_round_hi_lo _ p B); lia.
Qed.

Lemma div_eucl_fst (a b : Z) : fst (Z.div_eucl a b) = a / b.
Proof. reflexivity. Qed.

Lemma SFdiv_hi (x y : spec_float) (K lo : Z) :
  fin_hi K x -> fin_lo lo y -> -1074 <= K - lo <= 970 ->
  fin_hi (K - lo + 1) (SFdiv prec emax x y).
Proof.
  intros Hx Hy HK.
  destruct x as [sx| | |sx mx ex]; [|done|done|];
    destruct y as [| | |sy my ey]; try done.
  cbn [fin_hi fin_lo] in Hx, Hy. cbn [SFdiv].
  unfold SFdiv_core_binary. rewrite fexp_eq. cbn [Zdigits2].
  set (d1 := Z.pos (digits2_pos mx)) in *.
  set (d2 := Z.pos (digits2_pos my)) in *.
  set (e' := Z.min (Z.max (d1 + ex - (d2 + ey) - 53) (-1074)) (ex - ey)).
  set (s := ex - ey - e').
  assert (Hs : 0 <= s) by (unfold s, e'; lia).
  set (m' := match s with
             | 0 => Z.pos mx
             | Z.pos _ => Z.shiftl (Z.pos mx) s
             | Z.neg _ => 0
             end).
  assert (Hm' : m' = Z.pos mx * 2 ^ s).
  { unfold m'. destruct s as [|q|q] eqn:Hq; [lia| |lia].
    apply Z.shiftl_mul_pow2. lia. }
  pose proof (div_eucl_fst m' (Z.pos my)) as Hq.
  destruct (Z.div_eucl m' (Z.pos my)) as [q r]. cbn [fst] in Hq.
  assert (H2s : 0 < 2 ^ s) by (apply Z.pow_pos_nonneg; lia).
  assert (Hq0 : 0 <= q) by (rewrite Hq; apply Z.div_pos; nia).
  assert (d1pos : 1 <= d1) by (unfold d1; lia).
  assert (d2pos : 1 <= d2) by (unfold d2; lia).
  set (t := Z.max 0 (d1 + s - d2 + 1)).
  assert (Hqt : q < 2 ^ t).
  { rewrite Hq. apply Z.div_lt_upper_bound; [lia|].
    pose proof (pos_lt_pow2_digits mx) as H1. fold d1 in H1.
    pose proof (pow2_digits_le_pos my) as H2. fold d2 in H2.
    assert (H3 : m' < 2 ^ (d1 + s)) by (rewrite Hm', Z.pow_add_r by lia; nia).
    assert (H4 : 2 ^ (d1 + s) <= 2 ^ (d2 - 1) * 2 ^ t).
    { rewrite <- Z.pow_add_r by (unfold t; lia).
      apply Z.pow_le_mono_r; unfold t; lia. }
    assert (0 < 2 ^ t) by (apply Z.pow_pos_nonneg; unfold t; lia).
    assert (2 ^ (d2 - 1) * 2 ^ t <= Z.pos my * 2 ^ t)
      by (apply Z.mul_le_mono_nonneg_r; lia).
    lia. }
  assert (Hdq : Zdigits2 q <= t)
    by (apply Zdigits2_upper; [done|unfold t; lia|done]).
  apply binary_round_aux_hi; [done| | |lia].
  - unfold t, s, e' in *. lia.
  - unfold e'. lia.
Qed.

Lemma binary_normalize_not_nan (m e : Z) (szero : bool) :
  binary_normalize prec emax m e szero <> S754_nan.
Proof.
  destruct m as [|p|p]; cbn [binary_normalize]; [done|..];
    unfold binary_round;
    destruct (shl_align p e _) as [mz ez];
    apply binary_round_aux_not_nan; lia.
Qed.

Lemma SFadd_not_nan (x y : spec_float) (K : Z) :
  x <> S754_nan -> fin_hi K y -> SFadd prec emax x y <> S754_nan.
Proof.
  intros Hx Hy.
  destruct x as [sx|sx| |sx mx ex]; [| |done|];
    destruct y as [sy| | |sy my ey]; try done; cbn [SFadd].
  - by destruct sx, sy.
  - apply binary_normalize_not_nan.
Qed.

Lemma SFopp_involutive (x : spec_float) : SFopp (SFopp x) = x.
Proof. destruct x; cbn; by rewrite ?negb_involutive. Qed.

Lemma SFeqb_refl (x : spec_float) : x <> S754_nan -> SFeqb x x = true.
Proof.
  intros Hx. unfold SFeqb.
  destruct x as [s|s| |s m e]; cbn [SFcompare]; [done|by destruct s|done|].
  rewrite Z.compare_refl.
  change (Pos.compare_cont Eq m m) with (Pos.compare m m).
  rewrite Pos.compare_refl. by destruct s.
Qed.

End Operations.

Local Open Scope string_scope.

(** ** The GPS converter *)

Section Converter.

Lemma valid_component_pow2 (z : Z) : valid_component z -> Z.abs z < 2 ^ 512.
Proof. intros H. exact H. Qed.

Lemma py_float_valid (z : Z) :
  valid_component z -> py_float z = Ok (of_Z z) /\ fin_hi 513 (of_Z z).
Proof.
  intros Hz. apply valid_component_pow2 in Hz.
  pose proof (of_Z_hi z 512 Hz ltac:(lia)) as H.
  split; [|exact H]. unfold py_float.
  destruct (of_Z z); try reflexivity. destruct H.
Qed.

Lemma f60_lo : fin_lo (-47) f60.
Proof. cbn. lia. Qed.

Lemma f3600_lo : fin_lo (-41) f3600.
Proof. cbn. lia. Qed.

(** The quotient of a valid rational is computed, and is finite. *)
Lemma elem_quotient_valid (num den : Z) :
  valid_ratio num den ->
  elem_quotient (ERatio num den) = Ok (quotient num den)
  /\ fin_hi 566 (quotient num den).
Proof.
  intros (Hd0 & Hn & Hd).
  destruct (py_float_valid num Hn) as [Hfn Hhi].
  destruct (py_float_valid den Hd) as [Hfd _].
  pose proof (of_Z_lo den 512 Hd0 (valid_component_pow2 den Hd) ltac:(lia))
    as Hlo.
  split.
  - unfold elem_quotient, mbind, result_bind. cbn [elem_num elem_den Py.bind].
    rewrite Hfn. cbn [Py.bind]. rewrite Hfd. cbn [Py.bind].
    unfold py_truediv, quotient.
    destruct (of_Z den); try reflexivity; destruct Hlo.
  - unfold quotient, fdiv.
    apply (SFdiv_hi (of_Z num) (of_Z den) 513 (-52)); [done|done|lia].
Qed.

Lemma degrees_of_not_nan (d m s : float) :
  fin_hi 566 d -> fin_hi 566 m -> fin_hi 566 s ->
  degrees_of d m s <> S754_nan.
Proof.
  intros Hd Hm Hs. unfold degrees_of, fadd, fdiv.
  pose proof (SFdiv_hi m f60 566 (-47) Hm f60_lo ltac:(lia)) as Hm60.
  pose proof (SFdiv_hi s f3600 566 (-41) Hs f3600_lo ltac:(lia)) as Hs3600.
  apply SFadd_not_nan with (566 - -41 + 1); [|exact Hs3600].
  apply SFadd_not_nan with (566 - -47 + 1); [|exact Hm60].
  intros ->. destruct Hd.
Qed.

Lemma ref_negates_true (ref : string) :
  ref_negates ref = true <-> ref = "S" \/ ref = "W".
Proof.
  unfold ref_negates. rewrite orb_true_iff, !String.eqb_eq. reflexivity.
Qed.

Lemma ref_negates_false (ref : string) :
  ref_negates ref = false <-> ref <> "S" /\ ref <> "W".
Proof.
  unfold ref_negates. rewrite orb_false_iff, !String.eqb_neq. reflexivity.
Qed.

Variable value : GpsValue.
Variables n1 d1 n2 d2 n3 d3 : Z.

Hypothesis three_rationals :
  gps_values value = [ERatio n1 d1; ERatio n2 d2; ERatio n3 d3].
Hypothesis valid1 : valid_ratio n1 d1.
Hypothesis valid2 : valid_ratio n2 d2.
Hypothesis valid3 : valid_ratio n3 d3.

Lemma convert_to_degrees_valid :
  convert_to_degrees value
    = Ok (degrees_of (quotient n1 d1) (quotient n2 d2) (quotient n3 d3)).
Proof using three_rationals valid1 valid2 valid3.
  unfold convert_to_degrees, mbind, result_bind.
  rewrite three_rationals. cbn [comprehension].
  rewrite (proj1 (elem_quotient_valid _ _ valid1)). cbn [Py.bind].
  rewrite (proj1 (elem_quotient_valid _ _ valid2)). cbn [Py.bind].
  rewrite (proj1 (elem_quotient_valid _ _ valid3)). reflexivity.
Qed.

Lemma convert_gps_valid (ref : string) :
  convert_gps value ref
    = Ok (if ref_negates ref
          then fneg (degrees_of (quotient n1 d1) (quotient n2 d2)
                                (quotient n3 d3))
          else degrees_of (quotient n1 d1) (quotient n2 d2) (quotient n3 d3)).
Proof using three_rationals valid1 valid2 valid3.
  unfold convert_gps, mbind, result_bind.
  rewrite convert_to_degrees_valid. reflexivity.
Qed.

Lemma degrees_valid_not_nan :
  degrees_of (quotient n1 d1) (quotient n2 d2) (quotient n3 d3) <> S754_nan.
Proof using valid1 valid2 valid3.
  apply degrees_of_not_nan; by apply elem_quotient_valid.
Qed.

End Converter.

(** **** C5
    For three rationals with non-zero denominators the converter returns
    [d + m / 60.0 + s / 3600.0], where [d], [m] and [s] are the float
    quotients [float(num) / float(den)], negated when the reference is
    ["S"] or ["W"] and as it is otherwise; 35 degrees 30 minutes 0 seconds
    give 35.5 for ["N"] and -35.5 for ["S"]. *)
Theorem convert_gps_formula (value : GpsValue) (n1 d1 n2 d2 n3 d3 : Z)
        (ref : string) :
  gps_values value = [ERatio n1 d1; ERatio n2 d2; ERatio n3 d3] ->
  valid_ratio n1 d1 -> valid_ratio n2 d2 -> valid_ratio n3 d3 ->
  let degrees :=
    fadd (fadd (fdiv (of_Z n1) (of_Z d1))
               (fdiv (fdiv (of_Z n2) (of_Z d2)) (of_Z 60)))
         (fdiv (fdiv (of_Z n3) (of_Z d3)) (of_Z 3600)) in
  (ref = "S" \/ ref = "W" -> convert_gps value ref = Ok (fneg degrees))
  /\ (ref <> "S" -> ref <> "W" -> convert_gps value ref = Ok degrees)
  /\ convert_gps (GList [ERatio 35 1; ERatio 30 1; ERatio 0 1]) "N"
       = Ok (Prim2SF 35.5%float)
  /\ convert_gps (GList [ERatio 35 1; ERatio 30 1; ERatio 0 1]) "S"
       = Ok (Prim2SF (-35.5)%float).
Proof.
  intros Hv H1 H2 H3 degrees.
  pose proof (convert_gps_valid value n1 d1 n2 d2 n3 d3 Hv H1 H2 H3 ref) as H.
  split; [|split; [|split; vm_compute; reflexivity]].
  - intros Href. apply ref_negates_true in Href. rewrite Href in H. exact H.
  - intros HS HW. rewrite (proj2 (ref_negates_false ref)) in H by done. exact H.
Qed.

Lemma convert_gps_formula_witness :
  convert_gps (GTag (Worlds.ratio_tag "[12, 58, 30]" [(12, 1); (58, 1); (30, 1)]))
              "W"
    = Ok (fneg (fadd (fadd (fdiv (of_Z 12) (of_Z 1))
                           (fdiv (fdiv (of_Z 58) (of_Z 1)) (of_Z 60)))
                     (fdiv (fdiv (of_Z 30) (of_Z 1)) (of_Z 3600)))).
Proof.
  refine (proj1 (convert_gps_formula
                   (GTag (Worlds.ratio_tag "[12, 58, 30]"
                                           [(12, 1); (58, 1); (30, 1)]))
                   12 1 58 1 30 1 "W" _ _ _ _) _).
  - reflexivity.
  - unfold valid_ratio, valid_component, component_bound. lia.
  - unfold valid_ratio, valid_component, component_bound. lia.
  - unfold valid_ratio, valid_component, component_bound. lia.
  - right. reflexivity.
Defined.

(** **** C8
    For three rationals with non-zero denominators the four conversions
    return, the result for ["N"] is [==] to the negated result for ["S"],
    and the result for ["E"] is [==] to the negated result for ["W"]. *)
Theorem convert_gps_sign_symmetric (value : GpsValue) (n1 d1 n2 d2 n3 d3 : Z) :
  gps_values value = [ERatio n1 d1; ERatio n2 d2; ERatio n3 d3] ->
  valid_ratio n1 d1 -> valid_ratio n2 d2 -> valid_ratio n3 d3 ->
  exists north south east west,
    convert_gps value "N" = Ok north
    /\ convert_gps value "S" = Ok south
    /\ convert_gps value "E" = Ok east
    /\ convert_gps value "W" = Ok west
    /\ feq north (fneg south) = true
    /\ feq east (fneg west) = true.
Proof.
  intros Hv H1 H2 H3.
  pose proof (convert_gps_valid value n1 d1 n2 d2 n3 d3 Hv H1 H2 H3) as H.
  pose proof (degrees_valid_not_nan n1 d1 n2 d2 n3 d3 H1 H2 H3) as Hnan.
  set (x := degrees_of (quotient n1 d1) (quotient n2 d2) (quotient n3 d3)) in *.
  exists x, (fneg x), x, (fneg x).
  split; [apply (H "N")|]. split; [apply (H "S")|].
  split; [apply (H "E")|]. split; [apply (H "W")|].
  unfold feq, fneg. rewrite SFopp_involutive. split; by apply SFeqb_refl.
Qed.

Lemma convert_gps_sign_symmetric_witness :
  exists north south east west,
    convert_gps (GList [ERatio 35 1; ERatio 30 1; ERatio 7 3]) "N" = Ok north
    /\ convert_gps (GList [ERatio 35 1; ERatio 30 1; ERatio 7 3]) "S" = Ok south
    /\ convert_gps (GList [ERatio 35 1; ERatio 30 1; ERatio 7 3]) "E" = Ok east
    /\ convert_gps (GList [ERatio 35 1; ERatio 30 1; ERatio 7 3]) "W" = Ok west
    /\ feq north (fneg south) = true
    /\ feq east (fneg west) = true.
Proof.
  apply (convert_gps_sign_symmetric
           (GList [ERatio 35 1; ERatio 30 1; ERatio 7 3]) 35 1 30 1 7 3).
  - reflexivity.
  - unfold valid_ratio, valid_component, component_bound. lia.
  - unfold valid_ratio, valid_component, component_bound. lia.
  - unfold valid_ratio, valid_component, component_bound. lia.
Defined.

(** **** C9
    The reference is not validated: with any reference other than ["S"]
    and ["W"] the converter does what it does with ["N"], on every value;
    for three rationals with non-zero denominators that is the sum
    [d + m / 60.0 + s / 3600.0], not negated. *)
Theorem convert_gps_ref_not_validated (value : GpsValue) (ref : string) :
  ref <> "S" -> ref <> "W" ->
  convert_gps value ref = convert_gps value "N"
  /\ (forall n1 d1 n2 d2 n3 d3,
        gps_values value = [ERatio n1 d1; ERatio n2 d2; ERatio n3 d3] ->
        valid_ratio n1 d1 -> valid_ratio n2 d2 -> valid_ratio n3 d3 ->
        convert_gps value ref
          = Ok (degrees_of (quotient n1 d1) (quotient n2 d2) (quotient n3 d3))).
Proof.
  intros HS HW.
  assert (Href : ref_negates ref = false) by (by apply ref_negates_false).
  split.
  - unfold convert_gps. rewrite Href. reflexivity.
  - intros n1 d1 n2 d2 n3 d3 Hv H1 H2 H3.
    rewrite (convert_gps_valid value n1 d1 n2 d2 n3 d3 Hv H1 H2 H3 ref), Href.
    reflexivity.
Qed.

Lemma convert_gps_ref_not_validated_witness :
  convert_gps (GList [ERatio 35 1; ERatio 30 1; ERatio 0 1]) "X"
    = convert_gps (GList [ERatio 35 1; ERatio 30 1; ERatio 0 1]) "N"
  /\ convert_gps (GList [ERatio 35 1; ERatio 30 1; ERatio 0 1]) ""
       = convert_gps (GList [ERatio 35 1; ERatio 30 1; ERatio 0 1]) "N".
Proof.
  split.
  - refine (proj1 (convert_gps_ref_not_validated
                     (GList [ERatio 35 1; ERatio 30 1; ERatio 0 1]) "X" _ _));
      discriminate.
  - refine (proj1 (convert_gps_ref_not_validated
                     (GList [ERatio 35 1; ERatio 30 1; ERatio 0 1]) "" _ _));
      discriminate.
Defined.

(** ** Dictionaries *)

Section Dictionaries.

Lemma stringify_tags_fmap (tags : gmap string IfdTag) (md : dict) :
  stringify_tags tags md = ((fun t => VStr (printable t)) <$> tags) ∪ md.
Proof.
  unfold stringify_tags.
  apply (map_fold_weak_ind
           (fun r m => r = ((fun t => VStr (printable t)) <$> m) ∪ md)).
  - by rewrite fmap_empty, (left_id_L ∅ (∪)).
  - intros i x m r _ ->. by rewrite fmap_insert, insert_union_l.
Qed.

Lemma stringify_tags_empty (md : dict) : stringify_tags ∅ md = md.
Proof. by rewrite stringify_tags_fmap, fmap_empty, (left_id_L ∅ (∪)). Qed.

Lemma lookup_update (d other : dict) (k : string) :
  update d other !! k =
    match other !! k with Some v => Some v | None => d !! k end.
Proof.
  unfold update. rewrite lookup_union.
  destruct (other !! k), (d !! k); reflexivity.
Qed.

End Dictionaries.

(** ** The deep scanner *)

Section DeepScanner.

Variable w : World.
Variable file_path : string.

(** Whatever the body raises, it raises before its first store. *)
Lemma hidden_body_raise_untouched (metadata : dict) (e : exn) :
  snd (hidden_body w file_path metadata) = Raised e ->
  fst (hidden_body w file_path metadata) = metadata.
Proof.
  unfold hidden_body.
  destruct (hachoir_createParser w file_path) as [[parser|]|];
    cbn [fst snd]; try discriminate; try reflexivity.
  destruct (extractMetadata parser) as [[mx|]|];
    cbn [fst snd]; try discriminate; try reflexivity.
  destruct (exportPlaintext mx) as [[lines|]|];
    cbn [fst snd]; try discriminate; reflexivity.
Qed.

(** The three places where the body can raise. *)
Lemma hidden_body_raises_iff (metadata : dict) (e : exn) :
  snd (hidden_body w file_path metadata) = Raised e <->
  hachoir_createParser w file_path = Raise e
  \/ (exists parser,
        hachoir_createParser w file_path = Ok (Some parser)
        /\ (extractMetadata parser = Raise e
            \/ exists mx,
                 extractMetadata parser = Ok (Some mx)
                 /\ (exportPlaintext mx = Raise e
                     \/ (exportPlaintext mx = Ok None /\ e = not_iterable)))).
Proof.
  unfold hidden_body. split.
  - destruct (hachoir_createParser w file_path) as [[parser|]|]; cbn [snd];
      [|discriminate|intros [= ->]; by left].
    destruct (extractMetadata parser) as [[mx|]|] eqn:Hx; cbn [snd];
      [|discriminate|intros [= ->]; right; eauto].
    destruct (exportPlaintext mx) as [[lines|]|] eqn:Hl; cbn [snd];
      [discriminate|intros [= <-]|intros [= ->]]; right; eauto 8.
  - intros [->|(parser & -> & [->|(mx & -> & [->|[-> ->]])])]; reflexivity.
Qed.

(** **** C4
    Whenever the body of the deep scanner raises (while the parser is
    built, while the metadata is extracted, or while the exported lines
    are obtained and split), the scanner returns the dictionary whose only
    entry is ["Hidden Metadata Error"] with the text of the exception.
    The scanner is a total function, so nothing reaches its caller. *)
Theorem hidden_error_single_entry (e : exn) :
  snd (hidden_body w file_path ∅) = Raised e ->
  extract_hidden_metadata w file_path
    = {[ "Hidden Metadata Error" := VStr (exn_str e) ]}
  /\ size (extract_hidden_metadata w file_path) = 1%nat.
Proof.
  intros Hraise.
  pose proof (hidden_body_raise_untouched ∅ e Hraise) as Hfst.
  unfold extract_hidden_metadata.
  destruct (hidden_body w file_path ∅) as [metadata c]; cbn [fst snd] in *.
  subst. rewrite insert_empty. split; [reflexivity|]. apply map_size_singleton.
Qed.

End DeepScanner.

Lemma hidden_error_single_entry_witness :
  extract_hidden_metadata Worlds.parser_fails "a.png"
    = {[ "Hidden Metadata Error" := VStr "unable to open stream" ]}
  /\ size (extract_hidden_metadata Worlds.parser_fails "a.png") = 1%nat.
Proof.
  exact (hidden_error_single_entry Worlds.parser_fails "a.png"
           (Exn OtherError "unable to open stream") eq_refl).
Defined.

(** The two ways a line is split. *)
Example split_item_pair : split_item "Key: Value" = ("Key", "Value").
Proof. reflexivity. Qed.

Example split_item_word : split_item "JustAWord" = ("JustAWord", "Unknown").
Proof. reflexivity. Qed.

(** ** The EXIF decoder *)

Section ExifDecoder.

Variable w : World.
Variable image_path : string.

Lemma gps_entry_absent (tags : gmap string IfdTag) (metadata : dict) :
  tags !! "GPS GPSLatitude" = None \/ tags !! "GPS GPSLongitude" = None
  \/ tags !! "GPS GPSLatitudeRef" = None \/ tags !! "GPS GPSLongitudeRef" = None ->
  gps_entry w tags metadata = Ok metadata.
Proof.
  unfold gps_entry. intros [H|[H|[H|H]]]; rewrite H;
    repeat match goal with |- context [match ?x with _ => _ end] => destruct x end;
    reflexivity.
Qed.

(** An exception of the latitude conversion leaves [gps_entry]. *)
Lemma gps_entry_raises (tags : gmap string IfdTag) (metadata : dict)
      (gps_lat gps_lon lat_ref lon_ref : IfdTag) (e : exn) :
  tags !! "GPS GPSLatitude" = Some gps_lat ->
  tags !! "GPS GPSLongitude" = Some gps_lon ->
  tags !! "GPS GPSLatitudeRef" = Some lat_ref ->
  tags !! "GPS GPSLongitudeRef" = Some lon_ref ->
  convert_gps (GTag gps_lat) (printable lat_ref) = Raise e ->
  gps_entry w tags metadata = Raise e.
Proof.
  unfold gps_entry. intros -> -> -> -> H.
  unfold mbind, result_bind. rewrite H. reflexivity.
Qed.

(** No handler stands between the conversion and the caller of the
    decoder. *)
Lemma exif_gps_raise_propagates (bytes : list Byte.byte)
      (tags : gmap string IfdTag)
      (gps_lat gps_lon lat_ref lon_ref : IfdTag) (e : exn) :
  open_rb w image_path = Ok bytes ->
  exifread_process_file w bytes = Ok tags ->
  tags !! "GPS GPSLatitude" = Some gps_lat ->
  tags !! "GPS GPSLongitude" = Some gps_lon ->
  tags !! "GPS GPSLatitudeRef" = Some lat_ref ->
  tags !! "GPS GPSLongitudeRef" = Some lon_ref ->
  convert_gps (GTag gps_lat) (printable lat_ref) = Raise e ->
  extract_exif_metadata w image_path = Raise e.
Proof.
  intros Ho Hp H1 H2 H3 H4 Hc. unfold extract_exif_metadata.
  unfold mbind, result_bind. rewrite Ho. cbn [Py.bind]. rewrite Hp.
  cbn [Py.bind].
  rewrite (gps_entry_raises _ _ _ _ _ _ _ H1 H2 H3 H4 Hc). reflexivity.
Qed.

(** **** C2 (as amended)
    When the file can be opened and holds no EXIF segment (exifread
    answers with the empty tag dictionary), the decoder does not raise and
    returns the dictionary with exactly the two default entries
    ["Camera Model"] and ["Software"], both ["Unknown"]; it holds no tag
    entry and no ["GPS Coordinates"]. *)
Theorem exif_no_segment_defaults (bytes : list Byte.byte) :
  open_rb w image_path = Ok bytes ->
  exifread_process_file w bytes = Ok ∅ ->
  extract_exif_metadata w image_path
    = Ok {[ "Software" := VStr "Unknown"; "Camera Model" := VStr "Unknown" ]}.
Proof.
  intros Ho Hp. unfold extract_exif_metadata, mbind, result_bind.
  rewrite Ho. cbn [Py.bind]. rewrite Hp. cbn [Py.bind].
  rewrite stringify_tags_empty.
  rewrite gps_entry_absent by (left; apply lookup_empty).
  unfold tag_or_unknown. rewrite !lookup_empty. cbn [Py.bind].
  rewrite insert_empty. reflexivity.
Qed.

End ExifDecoder.

(** A file without EXIF segment: the decoder's answer is not empty. *)
Lemma exif_no_segment_not_empty :
  open_rb Worlds.sparse "blank.png" = Ok nil
  /\ exifread_process_file Worlds.sparse nil = Ok ∅
  /\ extract_exif_metadata Worlds.sparse "blank.png" <> Ok ∅.
Proof.
  split; [reflexivity|]. split; [reflexivity|].
  intros H.
  apply (f_equal (fun r => match r with
                           | Ok d => d !! "Software"
                           | Raise _ => None
                           end)) in H.
  vm_compute in H. discriminate H.
Qed.

Lemma exif_no_segment_defaults_witness :
  extract_exif_metadata Worlds.sparse "blank.png"
    = Ok {[ "Software" := VStr "Unknown"; "Camera Model" := VStr "Unknown" ]}.
Proof.
  apply (exif_no_segment_defaults Worlds.sparse "blank.png" nil); reflexivity.
Defined.

(** **** C3 (the decoder at two malformed latitudes)
    With all four GPS tags present, a latitude whose seconds are 0/0 makes
    the decoder raise [ZeroDivisionError], and a latitude of two
    components makes it raise [ValueError]: no dictionary is returned. *)
Theorem exif_gps_failure_escapes :
  extract_exif_metadata Worlds.zero_den "photo.jpg"
    = Raise (Exn ZeroDivisionError "float division by zero")
  /\ extract_exif_metadata Worlds.short_lat "photo.jpg"
       = Raise (Exn ValueError "not enough values to unpack (expected 3, got 2)").
Proof. split; vm_compute; reflexivity. Qed.

(** ** The container-header stage *)

Section HeaderStage.

Variable w : World.
Variable image_path : string.

Lemma header_stage_lookup_other (metadata : dict) (k : string) :
  k ∉ header_keys ->
  header_stage w image_path metadata !! k = metadata !! k.
Proof.
  intros H. not_in_keys H. unfold header_stage.
  destruct (Image_open w image_path) as [img|e];
    rewrite ?lookup_insert_ne by congruence; reflexivity.
Qed.

(** The stage only adds entries on top of the dictionary it is given. *)
Lemma header_stage_union (metadata : dict) :
  header_stage w image_path metadata
    = header_stage w image_path ∅ ∪ metadata.
Proof.
  unfold header_stage.
  destruct (Image_open w image_path) as [img|e];
    rewrite <- ?insert_union_l, (left_id_L ∅ (∪)); reflexivity.
Qed.

Lemma header_stage_dom (metadata : dict) (k : string) :
  is_Some (header_stage w image_path metadata !! k) ->
  k ∈ header_keys \/ is_Some (metadata !! k).
Proof.
  destruct (decide (k ∈ header_keys)) as [Hin|Hout]; [by left|].
  rewrite header_stage_lookup_other by done. by right.
Qed.

Lemma seed_returns (size : Z) (ctime mtime : float) :
  os_path_getsize w image_path = Ok size ->
  os_path_getctime w image_path = Ok ctime ->
  os_path_getmtime w image_path = Ok mtime ->
  seed w image_path
    = Ok (<["Modification Time" := VStr (time_ctime w mtime)]>
          (<["Creation Time" := VStr (time_ctime w ctime)]>
           (<["File Size (bytes)" := VInt size]>
            (<["File Name" := VStr (os_path_basename w image_path)]> ∅)))).
Proof.
  intros Hs Hc Hm. unfold seed, mbind, result_bind.
  rewrite Hs, Hc, Hm. reflexivity.
Qed.

(** A stat failure is the only way for the seeding to fail. *)
Lemma seed_inv (fs : dict) :
  seed w image_path = Ok fs ->
  exists size ctime mtime,
    os_path_getsize w image_path = Ok size
    /\ os_path_getctime w image_path = Ok ctime
    /\ os_path_getmtime w image_path = Ok mtime.
Proof.
  unfold seed, mbind, result_bind.
  destruct (os_path_getsize w image_path) as [size|]; [|discriminate].
  destruct (os_path_getctime w image_path) as [ct|]; [|discriminate].
  destruct (os_path_getmtime w image_path) as [mt|]; [|discriminate].
  eauto 6.
Qed.

Lemma seed_lookup_other (fs : dict) (k : string) :
  seed w image_path = Ok fs -> k ∉ seed_keys -> fs !! k = None.
Proof.
  intros Hseed H. not_in_keys H.
  destruct (seed_inv fs Hseed) as (size & ct & mt & Hs & Hc & Hm).
  rewrite (seed_returns _ _ _ Hs Hc Hm) in Hseed.
  injection Hseed as <-.
  rewrite !lookup_insert_ne by congruence. apply lookup_empty.
Qed.

(** **** C10
    The container-header stage writes no key besides ["Format"],
    ["Mode"], ["Size (pixels)"], ["Bit Depth"], ["Compression"],
    ["ICC Profile"] and ["PIL Error"]: every other key reads after the
    stage as before it, and the four entries seeded from the filesystem
    still hold the values of the seeding. *)
Theorem header_stage_frame (size : Z) (ctime mtime : float) :
  os_path_getsize w image_path = Ok size ->
  os_path_getctime w image_path = Ok ctime ->
  os_path_getmtime w image_path = Ok mtime ->
  exists fs,
    seed w image_path = Ok fs
    /\ (forall k, k ∉ header_keys ->
                  header_stage w image_path fs !! k = fs !! k)
    /\ (forall k, is_Some (header_stage w image_path fs !! k) ->
                  k ∈ header_keys \/ is_Some (fs !! k))
    /\ header_stage w image_path fs !! "File Name"
         = Some (VStr (os_path_basename w image_path))
    /\ header_stage w image_path fs !! "File Size (bytes)" = Some (VInt size)
    /\ header_stage w image_path fs !! "Creation Time"
         = Some (VStr (time_ctime w ctime))
    /\ header_stage w image_path fs !! "Modification Time"
         = Some (VStr (time_ctime w mtime)).
Proof.
  intros Hs Hc Hm. eexists. split; [apply (seed_returns _ _ _ Hs Hc Hm)|].
  split; [intros k Hk; by apply header_stage_lookup_other|].
  split; [intros k Hk; by apply header_stage_dom|].
  assert (Hout : forall k, k ∈ seed_keys -> k ∉ header_keys).
  { intros k Hk Hk'. unfold seed_keys, header_keys in *.
    repeat (apply elem_of_cons in Hk; destruct Hk as [->|Hk]);
      try (by apply elem_of_nil in Hk);
      repeat (apply elem_of_cons in Hk'; destruct Hk' as [Hk'|Hk']);
      try discriminate Hk'; by apply elem_of_nil in Hk'. }
  repeat split; (rewrite header_stage_lookup_other;
    [|apply Hout; unfold seed_keys; rewrite !elem_of_cons; tauto]).
  - rewrite !lookup_insert_ne by discriminate. apply lookup_insert_eq.
  - rewrite !lookup_insert_ne by discriminate. apply lookup_insert_eq.
  - rewrite !lookup_insert_ne by discriminate. apply lookup_insert_eq.
  - apply lookup_insert_eq.
Qed.

End HeaderStage.

Lemma header_stage_frame_witness :
  exists fs,
    seed Worlds.sparse "blank.png" = Ok fs
    /\ (forall k, k ∉ header_keys ->
                  header_stage Worlds.sparse "blank.png" fs !! k = fs !! k)
    /\ (forall k, is_Some (header_stage Worlds.sparse "blank.png" fs !! k) ->
                  k ∈ header_keys \/ is_Some (fs !! k))
    /\ header_stage Worlds.sparse "blank.png" fs !! "File Name"
         = Some (VStr "blank.png")
    /\ header_stage Worlds.sparse "blank.png" fs !! "File Size (bytes)"
         = Some (VInt 2048)
    /\ header_stage Worlds.sparse "blank.png" fs !! "Creation Time"
         = Some (VStr "Thu Jan  1 00:00:00 1970")
    /\ header_stage Worlds.sparse "blank.png" fs !! "Modification Time"
         = Some (VStr "Thu Jan  1 00:00:00 1970").
Proof.
  apply (header_stage_frame Worlds.sparse "blank.png" 2048 (of_Z 0) (of_Z 0));
    reflexivity.
Defined.

(** ** The extension test *)

Section Extension.

Lemma append_nil_l (s : string) : "" ++ s = s.
Proof. reflexivity. Qed.

Lemma append_cons (c : ascii) (a b : string) :
  String c a ++ b = String c (a ++ b).
Proof. reflexivity. Qed.

Lemma endswith_iff (s suffix : string) :
  endswith s suffix = true <-> exists stem, s = stem ++ suffix.
Proof.
  induction s as [|c s IH]; cbn [endswith].
  - destruct (String.eqb_spec "" suffix) as [<-|Hne].
    + split; [by exists ""|done].
    + split; [done|].
      intros [[|c stem] H]; rewrite ?append_nil_l, ?append_cons in H;
        congruence.
  - destruct (String.eqb_spec (String c s) suffix) as [<-|Hne].
    + split; [by exists ""|done].
    + rewrite IH. split.
      * intros [stem ->]. by exists (String c stem).
      * intros [[|c' stem] H]; rewrite ?append_nil_l, ?append_cons in H;
          [congruence|].
        injection H as <- ->. by exists stem.
Qed.

Lemma lower_app (a b : string) : lower (a ++ b) = lower a ++ lower b.
Proof.
  induction a as [|c a IH]; [reflexivity|].
  rewrite append_cons. cbn [lower]. by rewrite IH, append_cons.
Qed.

Lemma lower_eq_app (p a b : string) :
  lower p = a ++ b ->
  exists p1 p2, p = p1 ++ p2 /\ lower p1 = a /\ lower p2 = b.
Proof.
  revert p. induction a as [|c a IH]; intros p H.
  - by exists "", p.
  - destruct p as [|c' p]; [discriminate|].
    rewrite append_cons in H. cbn [lower] in H.
    injection H as Hc H. destruct (IH _ H) as (p1 & p2 & -> & <- & <-).
    exists (String c' p1), p2. cbn [lower]. by rewrite Hc.
Qed.

(** [is_heic] holds exactly of the paths that end in an extension which,
    lowercased, reads [.heic]. *)
Lemma is_heic_iff (image_path : string) :
  is_heic image_path = true <->
  exists stem ext, image_path = stem ++ ext /\ lower ext = ".heic".
Proof.
  unfold is_heic. rewrite endswith_iff. split.
  - intros [pre H]. destruct (lower_eq_app _ _ _ H) as (p1 & p2 & -> & _ & H2).
    eauto.
  - intros (stem & ext & -> & H). exists (lower stem).
    by rewrite lower_app, H.
Qed.

End Extension.

(** ** The aggregator *)

Section Aggregator.

Variable w : World.
Variable image_path : string.

Lemma extract_after_seed (fs : dict) :
  seed w image_path = Ok fs ->
  extract_image_metadata w image_path
    = (metadata ← exif_stage w image_path (header_stage w image_path fs);
       Ok (update metadata (extract_hidden_metadata w image_path))).
Proof.
  intros H. unfold extract_image_metadata, mbind, result_bind.
  rewrite H. reflexivity.
Qed.

(** A stat failure is a failure of the whole call. *)
Lemma extract_seed_raises (e : exn) :
  seed w image_path = Raise e -> extract_image_metadata w image_path = Raise e.
Proof.
  intros H. unfold extract_image_metadata, mbind, result_bind.
  rewrite H. reflexivity.
Qed.

Lemma extract_heic (fs : dict) :
  seed w image_path = Ok fs ->
  is_heic image_path = true ->
  extract_image_metadata w image_path
    = Ok (update (header_stage w image_path fs)
                 (extract_hidden_metadata w image_path)).
Proof.
  intros Hs Hh. rewrite (extract_after_seed fs Hs).
  unfold exif_stage. rewrite Hh. reflexivity.
Qed.

Lemma extract_not_heic (fs : dict) :
  seed w image_path = Ok fs ->
  is_heic image_path = false ->
  extract_image_metadata w image_path
    = (exif ← extract_exif_metadata w image_path;
       Ok (update (update (header_stage w image_path fs) exif)
                  (extract_hidden_metadata w image_path))).
Proof.
  intros Hs Hh. rewrite (extract_after_seed fs Hs).
  unfold exif_stage, mbind, result_bind. rewrite Hh. cbn [negb].
  destruct (extract_exif_metadata w image_path); reflexivity.
Qed.

(** Once the attributes of the file are read, the EXIF stage is the
    only stage whose failure leaves the aggregator. *)
Lemma extract_returns_iff (fs : dict) :
  seed w image_path = Ok fs ->
  Py.returns (extract_image_metadata w image_path) <->
  is_heic image_path = true
  \/ Py.returns (extract_exif_metadata w image_path).
Proof.
  intros Hs. destruct (is_heic image_path) eqn:Hh.
  - rewrite (extract_heic fs Hs Hh). split; [by left|]. intros _. by eexists.
  - rewrite (extract_not_heic fs Hs Hh). unfold mbind, result_bind.
    destruct (extract_exif_metadata w image_path) as [exif|e]; cbn [Py.bind].
    + split; [right|]; by eexists.
    + split; [intros [r H]; discriminate H|].
      intros [H|[r H]]; discriminate H.
Qed.

(** A decode failure of PIL becomes an entry of the record. *)
Lemma header_failure_embedded (metadata : dict) (e : exn) :
  Image_open w image_path = Raise e ->
  header_stage w image_path metadata
    = <["PIL Error" := VStr (exn_str e)]> metadata.
Proof. intros H. unfold header_stage. rewrite H. reflexivity. Qed.

(** **** C6
    For a path that ends in an extension which reads [.heic] when
    lowercased, the aggregator runs without the EXIF decoder: the record is
    the header stage's dictionary updated with the deep scanner's, so a key
    written by neither the seeding nor the header stage (as
    ["GPS Coordinates"]) is in the record only as the deep scanner produced
    it.  For every other path the EXIF decoder is called and its dictionary
    is merged between the header stage's and the deep scanner's. *)
Theorem heic_skips_exif (fs : dict) :
  seed w image_path = Ok fs ->
  ((exists stem ext, image_path = stem ++ ext /\ lower ext = ".heic") ->
     extract_image_metadata w image_path
       = Ok (update (header_stage w image_path fs)
                    (extract_hidden_metadata w image_path))
     /\ (forall k, k ∉ seed_keys -> k ∉ header_keys ->
           update (header_stage w image_path fs)
                  (extract_hidden_metadata w image_path) !! k
             = extract_hidden_metadata w image_path !! k)
     /\ update (header_stage w image_path fs)
               (extract_hidden_metadata w image_path) !! "GPS Coordinates"
          = extract_hidden_metadata w image_path !! "GPS Coordinates")
  /\ (~ (exists stem ext, image_path = stem ++ ext /\ lower ext = ".heic") ->
        extract_image_metadata w image_path
          = (exif ← extract_exif_metadata w image_path;
             Ok (update (update (header_stage w image_path fs) exif)
                        (extract_hidden_metadata w image_path)))).
Proof.
  intros Hs.
  assert (Hother : forall k, k ∉ seed_keys -> k ∉ header_keys ->
            update (header_stage w image_path fs)
                   (extract_hidden_metadata w image_path) !! k
              = extract_hidden_metadata w image_path !! k).
  { intros k Hk1 Hk2. rewrite lookup_update.
    rewrite header_stage_lookup_other by done.
    rewrite (seed_lookup_other w image_path fs k Hs Hk1).
    by destruct (extract_hidden_metadata w image_path !! k). }
  split.
  - intros Hext. apply is_heic_iff in Hext.
    split; [by apply extract_heic|]. split; [done|].
    apply Hother; unfold seed_keys, header_keys;
      rewrite !not_elem_of_cons; repeat split;
      try discriminate; apply not_elem_of_nil.
  - intros Hext. apply extract_not_heic; [done|].
    destruct (is_heic image_path) eqn:Hh; [|done].
    exfalso. apply Hext. by apply is_heic_iff.
Qed.

(** **** C7
    For a path on which the EXIF stage runs and returns, the record is the
    deep scanner's dictionary over the EXIF decoder's over the header
    stage's over the filesystem attributes: a key reads as the last of the
    four stages that wrote it, so a key written by the header stage, the
    EXIF decoder and the deep scanner holds the deep scanner's value. *)
Theorem merge_last_wins (fs exif : dict) :
  seed w image_path = Ok fs ->
  is_heic image_path = false ->
  extract_exif_metadata w image_path = Ok exif ->
  let header := header_stage w image_path ∅ in
  let deep := extract_hidden_metadata w image_path in
  exists r,
    extract_image_metadata w image_path = Ok r
    /\ r = deep ∪ (exif ∪ (header ∪ fs))
    /\ (forall X,
          r !! X = match deep !! X, exif !! X, header !! X with
                   | Some v, _, _ => Some v
                   | None, Some v, _ => Some v
                   | None, None, Some v => Some v
                   | None, None, None => fs !! X
                   end)
    /\ (forall X vh ve vd,
          header !! X = Some vh -> exif !! X = Some ve ->
          deep !! X = Some vd -> r !! X = Some vd).
Proof.
  intros Hs Hh He header deep.
  assert (Hlook : forall X,
    (deep ∪ (exif ∪ (header ∪ fs))) !! X
      = match deep !! X, exif !! X, header !! X with
        | Some v, _, _ => Some v
        | None, Some v, _ => Some v
        | None, None, Some v => Some v
        | None, None, None => fs !! X
        end).
  { intros X. rewrite !lookup_union.
    destruct (deep !! X), (exif !! X), (header !! X), (fs !! X); reflexivity. }
  eexists. split; [|split; [reflexivity|split]].
  - rewrite (extract_not_heic fs Hs Hh), He. unfold mbind, result_bind.
    cbn [Py.bind]. unfold update. rewrite header_stage_union. reflexivity.
  - exact Hlook.
  - intros X vh ve vd _ _ Hd. by rewrite Hlook, Hd.
Qed.

End Aggregator.

Lemma heic_skips_exif_witness :
  extract_image_metadata Worlds.zero_den "photo.HEIC"
    = Ok (update (header_stage Worlds.zero_den "photo.HEIC"
                    (<["Modification Time" := VStr "Thu Jan  1 00:00:00 1970"]>
                     (<["Creation Time" := VStr "Thu Jan  1 00:00:00 1970"]>
                      (<["File Size (bytes)" := VInt 2048]>
                       (<["File Name" := VStr "photo.HEIC"]> ∅)))))
                 (extract_hidden_metadata Worlds.zero_den "photo.HEIC")).
Proof.
  refine (proj1 (proj1 (heic_skips_exif Worlds.zero_den "photo.HEIC" _ _) _)).
  - apply (seed_returns Worlds.zero_den "photo.HEIC" 2048 (of_Z 0) (of_Z 0));
      reflexivity.
  - exists "photo", ".HEIC". split; reflexivity.
Defined.

Lemma merge_last_wins_witness :
  exists r,
    extract_image_metadata Worlds.colliding "a.jpg" = Ok r
    /\ r !! "Format" = Some (VStr "from hachoir").
Proof.
  destruct (merge_last_wins Worlds.colliding "a.jpg"
              (<["Modification Time" := VStr "Thu Jan  1 00:00:00 1970"]>
               (<["Creation Time" := VStr "Thu Jan  1 00:00:00 1970"]>
                (<["File Size (bytes)" := VInt 2048]>
                 (<["File Name" := VStr "a.jpg"]> ∅))))
              (<["Software" := VStr "Unknown"]>
               (<["Camera Model" := VStr "Unknown"]>
                {[ "Format" := VStr "from exif" ]})))
    as (r & Hr & _ & _ & Hwin).
  - apply (seed_returns Worlds.colliding "a.jpg" 2048 (of_Z 0) (of_Z 0));
      reflexivity.
  - vm_compute. reflexivity.
  - vm_compute. reflexivity.
  - exists r. split; [exact Hr|].
    apply (Hwin "Format" (VStr "PNG") (VStr "from exif") (VStr "from hachoir"));
      vm_compute; reflexivity.
Defined.

(** **** C1 (the aggregator at a latitude with a zero denominator)
    The attributes of the file are read, the path is not a [.heic] path,
    and the latitude tag holds the rational 0/0: the aggregator raises
    [ZeroDivisionError] and returns no record. *)
Theorem extract_fails_on_zero_denominator :
  Py.returns (seed Worlds.zero_den "photo.jpg")
  /\ is_heic "photo.jpg" = false
  /\ extract_image_metadata Worlds.zero_den "photo.jpg"
       = Raise (Exn ZeroDivisionError "float division by zero").
Proof.
  split; [eexists; reflexivity|].
  split; vm_compute; reflexivity.
Qed.

(** ** Further properties of the converter *)

Local Close Scope string_scope.

Section MoreArithmetic.

Lemma fin_hi_weaken (K K' : Z) (x : spec_float) :
  fin_hi K x -> K <= K' -> fin_hi K' x.
Proof. destruct x; cbn; lia. Qed.

Lemma fin_hi_finite (K : Z) (x : spec_float) : fin_hi K x -> finite x = true.
Proof. by destruct x. Qed.

Lemma shl_align_digits (mx : positive) (ex ex' : Z) :
  snd (shl_align mx ex ex') <= ex
  /\ Z.pos (digits2_pos (fst (shl_align mx ex ex'))) + snd (shl_align mx ex ex')
       = Z.pos (digits2_pos mx) + ex.
Proof.
  destruct (shl_align_spec mx ex ex') as [He Hm].
  split; [lia|].
  rewrite (digits_mul_pow2 mx (ex - snd (shl_align mx ex ex'))); [lia|lia|done].
Qed.

Lemma binary_round_hi (sx : bool) (m : positive) (e M : Z) :
  Z.pos (digits2_pos m) + e <= M -> e <= M -> -1074 <= M <= 970 ->
  fin_hi (M + 1) (binary_round prec emax sx m e).
Proof.
  intros Hd He HM. unfold binary_round.
  pose proof (shl_align_digits m e (fexp prec emax (Z.pos (digits2_pos m) + e)))
    as [H1 H2].
  destruct (shl_align m e (fexp prec emax (Z.pos (digits2_pos m) + e)))
    as [mz ez]. cbn [fst snd] in *.
  apply binary_round_aux_hi; cbn [Zdigits2]; lia.
Qed.

Lemma binary_normalize_hi (m e M : Z) (szero : bool) :
  Zdigits2 m + e <= M -> e <= M -> -1074 <= M <= 970 ->
  fin_hi (M + 1) (binary_normalize prec emax m e szero).
Proof.
  intros Hd He HM.
  destruct m as [|p|p]; cbn [binary_normalize]; [done|..];
    by apply binary_round_hi.
Qed.

(** The sum of two finite floats below [2 ^ K] is finite. *)
Lemma SFadd_hi (x y : spec_float) (K : Z) :
  fin_hi K x -> fin_hi K y -> -1074 <= K + 1 <= 970 ->
  fin_hi (K + 2) (SFadd prec emax x y).
Proof.
  intros Hx Hy HK.
  destruct x as [sx| | |sx mx ex]; [|done|done|];
    destruct y as [sy| | |sy my ey]; try done; cbn [SFadd].
  - by destruct sx, sy.
  - apply fin_hi_weaken with K; [done|lia].
  - apply fin_hi_weaken with K; [done|lia].
  - cbn [fin_hi] in Hx, Hy.
    destruct (shl_align_spec mx ex (Z.min ex ey)) as [Hex Hmx].
    destruct (shl_align_spec my ey (Z.min ex ey)) as [Hey Hmy].
    pose proof (pos_lt_pow2_digits mx) as Hdx.
    pose proof (pos_lt_pow2_digits my) as Hdy.
    destruct (shl_align mx ex (Z.min ex ey)) as [a ea].
    destruct (shl_align my ey (Z.min ex ey)) as [b eb].
    cbn [fst snd] in *.
    set (ez := Z.min ex ey) in *.
    assert (Ha : Z.pos a < 2 ^ (K - ez)).
    { rewrite Hmx. replace (ex - ea) with (ex - ez) by lia.
      assert (Z.pos mx * 2 ^ (ex - ez)
                < 2 ^ Z.pos (digits2_pos mx) * 2 ^ (ex - ez)).
      { apply Z.mul_lt_mono_pos_r; [apply Z.pow_pos_nonneg|]; lia. }
      rewrite <- Z.pow_add_r in H by lia.
      assert (2 ^ (Z.pos (digits2_pos mx) + (ex - ez)) <= 2 ^ (K - ez))
        by (apply Z.pow_le_mono_r; lia).
      lia. }
    assert (Hb : Z.pos b < 2 ^ (K - ez)).
    { rewrite Hmy. replace (ey - eb) with (ey - ez) by lia.
      assert (Z.pos my * 2 ^ (ey - ez)
                < 2 ^ Z.pos (digits2_pos my) * 2 ^ (ey - ez)).
      { apply Z.mul_lt_mono_pos_r; [apply Z.pow_pos_nonneg|]; lia. }
      rewrite <- Z.pow_add_r in H by lia.
      assert (2 ^ (Z.pos (digits2_pos my) + (ey - ez)) <= 2 ^ (K - ez))
        by (apply Z.pow_le_mono_r; lia).
      lia. }
    assert (Hpow : 2 ^ (K - ez + 1) = 2 * 2 ^ (K - ez)).
    { rewrite Z.pow_add_r by lia. change (2 ^ 1) with 2. lia. }
    replace (K + 2) with (K + 1 + 1) by lia.
    apply (binary_normalize_hi _ ez (K + 1)); [|lia|lia].
    set (sum := cond_Zopp sx (Z.pos a) + cond_Zopp sy (Z.pos b)).
    assert (Habs : Z.abs sum < 2 ^ (K - ez + 1)).
    { unfold sum, cond_Zopp. destruct sx, sy; lia. }
    assert (Zdigits2 sum <= K - ez + 1); [|lia].
    destruct sum as [|p|p]; cbn [Zdigits2]; [lia|..];
      apply (Zdigits2_upper (Z.pos p)); lia.
Qed.

Lemma binary_round_aux_sign (sx : bool) (mz ez : Z) (lz : location) :
  0 <= mz -> sign_is sx (binary_round_aux prec emax sx mz ez lz).
Proof.
  intros Hmz.
  destruct (binary_round_aux_spec sx mz ez lz Hmz) as (m3 & e3 & -> & H & _).
  destruct m3 as [|m|m]; [done| |lia]. by destruct (e3 <=? 971).
Qed.

Lemma binary_round_sign (sx : bool) (m : positive) (e : Z) :
  sign_is sx (binary_round prec emax sx m e).
Proof.
  unfold binary_round. destruct (shl_align m e _) as [mz ez].
  apply binary_round_aux_sign. lia.
Qed.

Lemma of_Z_sign (z : Z) : 0 <= z -> sign_is false (of_Z z).
Proof.
  intros Hz. destruct z as [|p|p]; [done| |lia]. apply binary_round_sign.
Qed.

Lemma SFdiv_sign (x y : spec_float) (lo : Z) :
  sign_is false x -> sign_is false y -> fin_lo lo y ->
  sign_is false (SFdiv prec emax x y).
Proof.
  intros Hx Hy Hlo.
  destruct x as [sx|sx| |sx mx ex]; [| |done|];
    destruct y as [| | |sy my ey]; try done;
    cbn [sign_is] in Hx, Hy; subst; cbn [SFdiv]; try done.
  unfold SFdiv_core_binary.
  set (m' := match _ with 0 => _ | Z.pos _ => _ | Z.neg _ => _ end).
  assert (Hm' : 0 <= m').
  { unfold m'. match goal with |- 0 <= match ?s with _ => _ end =>
      destruct s eqn:Hs end; [lia| |lia].
    rewrite Z.shiftl_mul_pow2 by lia.
    apply Z.mul_nonneg_nonneg; [lia|]. apply Z.pow_nonneg. lia. }
  pose proof (div_eucl_fst m' (Z.pos my)) as Hq.
  destruct (Z.div_eucl m' (Z.pos my)) as [q r]. cbn [fst] in Hq.
  apply binary_round_aux_sign. rewrite Hq. apply Z.div_pos; lia.
Qed.

Lemma SFadd_sign (x y : spec_float) :
  sign_is false x -> sign_is false y -> sign_is false (SFadd prec emax x y).
Proof.
  intros Hx Hy.
  destruct x as [sx|sx| |sx mx ex]; [| |done|];
    destruct y as [sy|sy| |sy my ey]; try done;
    cbn [sign_is] in Hx, Hy; subst; cbn [SFadd]; try done.
  destruct (shl_align mx ex _) as [a ea].
  destruct (shl_align my ey _) as [b eb]. cbn [fst cond_Zopp].
  change (Z.pos a + Z.pos b) with (Z.pos (a + b)).
  cbn [binary_normalize]. apply binary_round_sign.
Qed.

Lemma SFleb_zero_sign (x : spec_float) :
  sign_is false x -> SFleb (S754_zero false) x = true.
Proof. destruct x as [s|s| |s m e]; cbn; try done; by intros ->. Qed.

Lemma SFleb_sign_zero (x : spec_float) :
  sign_is true x -> SFleb x (S754_zero false) = true.
Proof. destruct x as [s|s| |s m e]; cbn; try done; by intros ->. Qed.

Lemma SFopp_sign (x : spec_float) : sign_is false x -> sign_is true (SFopp x).
Proof. destruct x; cbn; try done; by intros ->. Qed.

End MoreArithmetic.

Local Open Scope string_scope.

Section MoreConverter.

Lemma comprehension_app_raise {A B : Type} (f : A -> result B)
      (l1 : list A) (v : A) (l2 : list A) (ys : list B) (e : exn) :
  comprehension f l1 = Ok ys -> f v = Raise e ->
  comprehension f (l1 ++ v :: l2)%list = Raise e.
Proof.
  revert ys. induction l1 as [|x l1 IH]; intros ys Hl Hv.
  - cbn [app comprehension]. by rewrite Hv.
  - cbn [app comprehension] in *. destruct (f x) as [y|e']; [|done].
    cbn [Py.bind] in *.
    destruct (comprehension f l1) as [ys'|e'] eqn:Hc; [|done].
    by rewrite (IH ys' eq_refl Hv).
Qed.

Lemma comprehension_valid (l : list PyElem) :
  Forall valid_elem l ->
  exists qs,
    comprehension elem_quotient l = Ok qs
    /\ length qs = length l
    /\ Forall (fin_hi 566) qs.
Proof.
  induction 1 as [|v l (num & den & -> & Hv) _ (qs & Hqs & Hlen & Hfin)].
  - by exists [].
  - destruct (elem_quotient_valid num den Hv) as [Hq Hhi].
    exists (quotient num den :: qs). cbn [comprehension].
    rewrite Hq, Hqs. cbn [Py.bind length]. by rewrite Hlen; auto.
Qed.

Lemma convert_gps_raise (value : GpsValue) (ref : string) (e : exn) :
  comprehension elem_quotient (gps_values value) = Raise e ->
  convert_gps value ref = Raise e.
Proof.
  intros H. unfold convert_gps, convert_to_degrees, mbind, result_bind.
  by rewrite H.
Qed.

Lemma elem_quotient_zero_den (num : Z) :
  valid_component num ->
  elem_quotient (ERatio num 0)
    = Raise (Exn ZeroDivisionError "float division by zero").
Proof.
  intros Hn. destruct (py_float_valid num Hn) as [Hfn _].
  unfold elem_quotient, mbind, result_bind. cbn [elem_num elem_den Py.bind].
  rewrite Hfn. reflexivity.
Qed.


Lemma degrees_of_hi (d m s : float) :
  fin_hi 566 d -> fin_hi 566 m -> fin_hi 566 s ->
  fin_hi 618 (degrees_of d m s).
Proof.
  intros Hd Hm Hs. unfold degrees_of, fadd, fdiv.
  pose proof (SFdiv_hi m f60 566 (-47) Hm f60_lo ltac:(lia)) as Hm60.
  pose proof (SFdiv_hi s f3600 566 (-41) Hs f3600_lo ltac:(lia)) as Hs3600.
  apply (SFadd_hi _ _ 616); [|eapply fin_hi_weaken; [exact Hs3600|lia]|lia].
  apply (SFadd_hi _ _ 614); [eapply fin_hi_weaken; [exact Hd|lia]| |lia].
  eapply fin_hi_weaken; [exact Hm60|lia].
Qed.

Lemma quotient_sign (num den : Z) :
  valid_ratio num den -> 0 <= num -> 0 < den ->
  sign_is false (quotient num den).
Proof.
  intros (Hd0 & Hn & Hd) Hnum Hden. unfold quotient, fdiv.
  apply SFdiv_sign with (-52).
  - by apply of_Z_sign.
  - apply of_Z_sign. lia.
  - apply (of_Z_lo den 512); [done|exact Hd|lia].
Qed.

Lemma degrees_of_sign (d m s : float) :
  sign_is false d -> sign_is false m -> sign_is false s ->
  sign_is false (degrees_of d m s).
Proof.
  intros Hd Hm Hs. unfold degrees_of, fadd, fdiv.
  apply SFadd_sign; [apply SFadd_sign; [done|]|].
  - by apply SFdiv_sign with (-47); [|done|apply f60_lo].
  - by apply SFdiv_sign with (-41); [|done|apply f3600_lo].
Qed.

End MoreConverter.

(** **** X1
    The quotients are computed before the list is unpacked: when the first
    element whose quotient raises does so with [e], the converter raises
    [e], whatever the number of elements and the reference. *)
Theorem convert_gps_first_failure (value : GpsValue) (l1 : list PyElem)
        (v : PyElem) (l2 : list PyElem) (qs : list float) (e : exn)
        (ref : string) :
  gps_values value = (l1 ++ v :: l2)%list ->
  comprehension elem_quotient l1 = Ok qs ->
  elem_quotient v = Raise e ->
  convert_gps value ref = Raise e.
Proof.
  intros Hv Hl He. apply convert_gps_raise. rewrite Hv.
  by apply comprehension_app_raise with qs.
Qed.

Lemma convert_gps_first_failure_witness :
  convert_gps (GList [ERatio 12 1; ERatio 58 0]) "N"
    = Raise (Exn ZeroDivisionError "float division by zero").
Proof.
  refine (convert_gps_first_failure
            (GList [ERatio 12 1; ERatio 58 0]) [ERatio 12 1] (ERatio 58 0) []
            [quotient 12 1] _ "N" _ _ _); reflexivity.
Defined.

(** **** X2
    A list of rationals with non-zero denominators whose length is not 3
    makes the converter raise the [ValueError] of the unpacking, for every
    reference. *)
Theorem convert_gps_wrong_length (value : GpsValue) (ref : string) :
  Forall valid_elem (gps_values value) ->
  length (gps_values value) <> 3%nat ->
  convert_gps value ref = Raise (unpack_error (length (gps_values value))).
Proof.
  intros Hvalid Hlen.
  destruct (comprehension_valid _ Hvalid) as (qs & Hqs & Hl & _).
  unfold convert_gps, convert_to_degrees, mbind, result_bind.
  rewrite Hqs. cbn [Py.bind]. rewrite <- Hl in *.
  destruct qs as [|d [|m [|s [|x qs]]]]; try reflexivity.
  by destruct Hlen.
Qed.

Lemma convert_gps_wrong_length_witness :
  convert_gps (GList [ERatio 12 1; ERatio 58 1; ERatio 30 1; ERatio 0 1]) "N"
    = Raise (Exn ValueError "too many values to unpack (expected 3)").
Proof.
  refine (convert_gps_wrong_length
            (GList [ERatio 12 1; ERatio 58 1; ERatio 30 1; ERatio 0 1]) "N" _ _).
  - repeat constructor;
      (eexists _, _; split; [reflexivity|];
       unfold valid_ratio, valid_component, component_bound; lia).
  - discriminate.
Defined.

(** **** X3
    A zero denominator makes the converter raise [ZeroDivisionError] when
    the elements before it are rationals with non-zero denominators,
    whatever follows it and whatever the reference; 0/0 is no exception. *)
Theorem convert_gps_zero_denominator (value : GpsValue) (l1 : list PyElem)
        (num : Z) (l2 : list PyElem) (ref : string) :
  gps_values value = (l1 ++ ERatio num 0 :: l2)%list ->
  Forall valid_elem l1 ->
  valid_component num ->
  convert_gps value ref
    = Raise (Exn ZeroDivisionError "float division by zero").
Proof.
  intros Hv Hl Hn. apply convert_gps_raise. rewrite Hv.
  destruct (comprehension_valid _ Hl) as (qs & Hqs & _).
  apply comprehension_app_raise with qs; [done|].
  by apply elem_quotient_zero_den.
Qed.

Lemma convert_gps_zero_denominator_witness :
  convert_gps (GList [ERatio 12 1; ERatio 0 0; ERatio 30 1]) "S"
    = Raise (Exn ZeroDivisionError "float division by zero").
Proof.
  refine (convert_gps_zero_denominator
            (GList [ERatio 12 1; ERatio 0 0; ERatio 30 1])
            [ERatio 12 1] 0 [ERatio 30 1] "S" _ _ _).
  - reflexivity.
  - repeat constructor.
    eexists _, _; split; [reflexivity|].
    unfold valid_ratio, valid_component, component_bound; lia.
  - unfold valid_component, component_bound; lia.
Defined.



(** **** X5
    For three rationals with non-zero denominators the converter returns a
    finite float, neither an infinity nor NaN, for every reference. *)
Theorem convert_gps_finite (value : GpsValue) (n1 d1 n2 d2 n3 d3 : Z)
        (ref : string) :
  gps_values value = [ERatio n1 d1; ERatio n2 d2; ERatio n3 d3] ->
  valid_ratio n1 d1 -> valid_ratio n2 d2 -> valid_ratio n3 d3 ->
  exists x, convert_gps value ref = Ok x /\ finite x = true.
Proof.
  intros Hv H1 H2 H3.
  rewrite (convert_gps_valid value n1 d1 n2 d2 n3 d3 Hv H1 H2 H3 ref).
  assert (Hfin : finite (degrees_of (quotient n1 d1) (quotient n2 d2)
                                    (quotient n3 d3)) = true).
  { apply fin_hi_finite with 618.
    apply degrees_of_hi; by apply elem_quotient_valid. }
  eexists. split; [reflexivity|].
  destruct (ref_negates ref); [|done].
  unfold fneg. by destruct (degrees_of _ _ _).
Qed.

Lemma convert_gps_finite_witness :
  exists x,
    convert_gps (GList [ERatio 35 1; ERatio 30 1; ERatio 7 3]) "W" = Ok x
    /\ finite x = true.
Proof.
  apply (convert_gps_finite
           (GList [ERatio 35 1; ERatio 30 1; ERatio 7 3]) 35 1 30 1 7 3 "W").
  - reflexivity.
  - unfold valid_ratio, valid_component, component_bound. lia.
  - unfold valid_ratio, valid_component, component_bound. lia.
  - unfold valid_ratio, valid_component, component_bound. lia.
Defined.

(** **** X6
    For three rationals with non-negative numerators and positive
    denominators, the result [x] for a reference other than ["S"] and ["W"]
    satisfies [0.0 <= x], and the result for ["S"] and for ["W"] is [-x]
    with [-x <= 0.0]. *)
Theorem convert_gps_sign (value : GpsValue) (n1 d1 n2 d2 n3 d3 : Z)
        (ref : string) :
  gps_values value = [ERatio n1 d1; ERatio n2 d2; ERatio n3 d3] ->
  valid_ratio n1 d1 -> valid_ratio n2 d2 -> valid_ratio n3 d3 ->
  0 <= n1 -> 0 < d1 -> 0 <= n2 -> 0 < d2 -> 0 <= n3 -> 0 < d3 ->
  ref <> "S" -> ref <> "W" ->
  exists x,
    convert_gps value ref = Ok x
    /\ fle (of_Z 0) x = true
    /\ convert_gps value "S" = Ok (fneg x)
    /\ convert_gps value "W" = Ok (fneg x)
    /\ fle (fneg x) (of_Z 0) = true.
Proof.
  intros Hv H1 H2 H3 Hn1 Hd1 Hn2 Hd2 Hn3 Hd3 HS HW.
  pose proof (convert_gps_valid value n1 d1 n2 d2 n3 d3 Hv H1 H2 H3) as H.
  assert (Hsign : sign_is false (degrees_of (quotient n1 d1) (quotient n2 d2)
                                            (quotient n3 d3))).
  { apply degrees_of_sign; by apply quotient_sign. }
  eexists. split; [|split; [|split; [|split]]].
  - rewrite (H ref), (proj2 (ref_negates_false ref)) by done. reflexivity.
  - by apply SFleb_zero_sign.
  - apply (H "S").
  - apply (H "W").
  - apply SFleb_sign_zero. by apply SFopp_sign.
Qed.

Lemma convert_gps_sign_witness :
  exists x,
    convert_gps (GList [ERatio 0 1; ERatio 0 1; ERatio 0 1]) "N" = Ok x
    /\ fle (of_Z 0) x = true
    /\ convert_gps (GList [ERatio 0 1; ERatio 0 1; ERatio 0 1]) "S"
         = Ok (fneg x)
    /\ convert_gps (GList [ERatio 0 1; ERatio 0 1; ERatio 0 1]) "W"
         = Ok (fneg x)
    /\ fle (fneg x) (of_Z 0) = true.
Proof.
  apply (convert_gps_sign
           (GList [ERatio 0 1; ERatio 0 1; ERatio 0 1]) 0 1 0 1 0 1 "N");
    try reflexivity; try discriminate; try lia;
    unfold valid_ratio, valid_component, component_bound; lia.
Defined.

(** ** Further properties of the EXIF decoder *)

Section MoreExif.

Variable w : World.
Variable image_path : string.
Variable bytes : list Byte.byte.
Variable tags : gmap string IfdTag.

Hypothesis opened : open_rb w image_path = Ok bytes.
Hypothesis processed : exifread_process_file w bytes = Ok tags.

Lemma exif_after_tags :
  extract_exif_metadata w image_path
    = (metadata ← gps_entry w tags (stringify_tags tags ∅);
       Ok (<["Software" := tag_or_unknown tags "Image Software"]>
           (<["Camera Model" := tag_or_unknown tags "Image Model"]> metadata))).
Proof using opened processed.
  unfold extract_exif_metadata, mbind, result_bind.
  rewrite opened. cbn [Py.bind]. rewrite processed. reflexivity.
Qed.

Lemma lookup_stringify_tags (k : string) :
  stringify_tags tags ∅ !! k = (fun t => VStr (printable t)) <$> tags !! k.
Proof.
  rewrite stringify_tags_fmap, (right_id_L ∅ (∪)). apply lookup_fmap.
Qed.

(** What [gps_entry] returns, when it returns. *)
Lemma gps_entry_inv (metadata md : dict) :
  gps_entry w tags metadata = Ok md ->
  md = metadata
  \/ exists latitude longitude,
       md = <["GPS Coordinates" :=
                VStr (float_str w latitude ++ ", " ++ float_str w longitude)]>
              metadata.
Proof.
  unfold gps_entry, mbind, result_bind.
  destruct (tags !! "GPS GPSLatitude") as [gps_lat|]; [|intros [= <-]; by left].
  destruct (tags !! "GPS GPSLongitude") as [gps_lon|]; [|intros [= <-]; by left].
  destruct (tags !! "GPS GPSLatitudeRef") as [lat_ref|];
    [|intros [= <-]; by left].
  destruct (tags !! "GPS GPSLongitudeRef") as [lon_ref|];
    [|intros [= <-]; by left].
  destruct (convert_gps (GTag gps_lat) (printable lat_ref)) as [la|];
    [|discriminate]. cbn [Py.bind].
  destruct (convert_gps (GTag gps_lon) (printable lon_ref)) as [lo|];
    [|discriminate]. cbn [Py.bind].
  intros [= <-]. right. eauto.
Qed.

Lemma gps_entry_present (metadata : dict)
      (gps_lat gps_lon lat_ref lon_ref : IfdTag) (latitude longitude : float) :
  tags !! "GPS GPSLatitude" = Some gps_lat ->
  tags !! "GPS GPSLongitude" = Some gps_lon ->
  tags !! "GPS GPSLatitudeRef" = Some lat_ref ->
  tags !! "GPS GPSLongitudeRef" = Some lon_ref ->
  convert_gps (GTag gps_lat) (printable lat_ref) = Ok latitude ->
  convert_gps (GTag gps_lon) (printable lon_ref) = Ok longitude ->
  gps_entry w tags metadata
    = Ok (<["GPS Coordinates" :=
              VStr (float_str w latitude ++ ", " ++ float_str w longitude)]>
            metadata).
Proof.
  unfold gps_entry, mbind, result_bind. intros -> -> -> -> -> ->. reflexivity.
Qed.

Lemma gps_entry_longitude_raises (metadata : dict)
      (gps_lat gps_lon lat_ref lon_ref : IfdTag) (latitude : float) (e : exn) :
  tags !! "GPS GPSLatitude" = Some gps_lat ->
  tags !! "GPS GPSLongitude" = Some gps_lon ->
  tags !! "GPS GPSLatitudeRef" = Some lat_ref ->
  tags !! "GPS GPSLongitudeRef" = Some lon_ref ->
  convert_gps (GTag gps_lat) (printable lat_ref) = Ok latitude ->
  convert_gps (GTag gps_lon) (printable lon_ref) = Raise e ->
  gps_entry w tags metadata = Raise e.
Proof.
  unfold gps_entry, mbind, result_bind. intros -> -> -> -> -> ->. reflexivity.
Qed.

End MoreExif.

(** **** X7
    When the file is opened and parsed, the decoder returns exactly when one
    of the four GPS tags is missing or both conversions return; otherwise it
    raises. *)
Theorem exif_returns_iff (w : World) (image_path : string)
        (bytes : list Byte.byte) (tags : gmap string IfdTag) :
  open_rb w image_path = Ok bytes ->
  exifread_process_file w bytes = Ok tags ->
  Py.returns (extract_exif_metadata w image_path) <->
  (tags !! "GPS GPSLatitude" = None \/ tags !! "GPS GPSLongitude" = None
   \/ tags !! "GPS GPSLatitudeRef" = None
   \/ tags !! "GPS GPSLongitudeRef" = None)
  \/ exists gps_lat gps_lon lat_ref lon_ref,
       tags !! "GPS GPSLatitude" = Some gps_lat
       /\ tags !! "GPS GPSLongitude" = Some gps_lon
       /\ tags !! "GPS GPSLatitudeRef" = Some lat_ref
       /\ tags !! "GPS GPSLongitudeRef" = Some lon_ref
       /\ Py.returns (convert_gps (GTag gps_lat) (printable lat_ref))
       /\ Py.returns (convert_gps (GTag gps_lon) (printable lon_ref)).
Proof.
  intros Ho Hp. rewrite (exif_after_tags w image_path bytes tags Ho Hp).
  unfold mbind, result_bind. split.
  - intros [md Hmd].
    destruct (tags !! "GPS GPSLatitude") as [gps_lat|] eqn:H1; [|by left; left].
    destruct (tags !! "GPS GPSLongitude") as [gps_lon|] eqn:H2;
      [|by left; right; left].
    destruct (tags !! "GPS GPSLatitudeRef") as [lat_ref|] eqn:H3;
      [|by left; right; right; left].
    destruct (tags !! "GPS GPSLongitudeRef") as [lon_ref|] eqn:H4;
      [|by left; right; right; right].
    right. exists gps_lat, gps_lon, lat_ref, lon_ref.
    do 4 (split; [done|]).
    destruct (convert_gps (GTag gps_lat) (printable lat_ref)) as [la|e] eqn:Hla.
    + destruct (convert_gps (GTag gps_lon) (printable lon_ref))
        as [lo|e] eqn:Hlo; [split; by eexists|].
      rewrite (gps_entry_longitude_raises w tags _ _ _ _ _ la e H1 H2 H3 H4
                 Hla Hlo) in Hmd. discriminate Hmd.
    + rewrite (gps_entry_raises w tags _ _ _ _ _ e H1 H2 H3 H4 Hla) in Hmd.
      discriminate Hmd.
  - intros [Hmiss|(gps_lat & gps_lon & lat_ref & lon_ref
                   & H1 & H2 & H3 & H4 & [la Hla] & [lo Hlo])].
    + rewrite (gps_entry_absent w tags _ Hmiss). by eexists.
    + rewrite (gps_entry_present w tags _ _ _ _ _ la lo H1 H2 H3 H4 Hla Hlo).
      by eexists.
Qed.

Lemma exif_returns_iff_witness :
  Py.returns (extract_exif_metadata Worlds.sparse "blank.png").
Proof.
  apply (exif_returns_iff Worlds.sparse "blank.png" [] ∅);
    [reflexivity|reflexivity|].
  left. left. apply lookup_empty.
Defined.

(** **** X8
    In the dictionary the decoder returns, every tag stands under its own
    name with its printable text, except under the three names the decoder
    writes itself; ["Camera Model"] and ["Software"] are always present, and
    hold the tag object of [Image Model] and of [Image Software], or
    ["Unknown"]. *)
Theorem exif_tags_stringified (w : World) (image_path : string)
        (bytes : list Byte.byte) (tags : gmap string IfdTag) (md : dict) :
  open_rb w image_path = Ok bytes ->
  exifread_process_file w bytes = Ok tags ->
  extract_exif_metadata w image_path = Ok md ->
  (forall k, k <> "GPS Coordinates" -> k <> "Camera Model" -> k <> "Software" ->
             md !! k = (fun t => VStr (printable t)) <$> tags !! k)
  /\ md !! "Camera Model"
       = Some (match tags !! "Image Model" with
               | Some t => VTag t
               | None => VStr "Unknown"
               end)
  /\ md !! "Software"
       = Some (match tags !! "Image Software" with
               | Some t => VTag t
               | None => VStr "Unknown"
               end).
Proof.
  intros Ho Hp. rewrite (exif_after_tags w image_path bytes tags Ho Hp).
  unfold mbind, result_bind.
  destruct (gps_entry w tags (stringify_tags tags ∅)) as [md0|] eqn:Hg;
    [|discriminate]. cbn [Py.bind]. intros [= <-].
  split; [|split].
  - intros k Hk1 Hk2 Hk3. rewrite !lookup_insert_ne by done.
    destruct (gps_entry_inv w tags _ _ Hg) as [->|(la & lo & ->)].
    + apply lookup_stringify_tags.
    + rewrite lookup_insert_ne by done. apply lookup_stringify_tags.
  - rewrite lookup_insert_ne by discriminate. apply lookup_insert_eq.
  - apply lookup_insert_eq.
Qed.

Lemma exif_tags_stringified_witness :
  extract_exif_metadata Worlds.colliding "a.jpg"
    = Ok (<["Software" := VStr "Unknown"]>
          (<["Camera Model" := VStr "Unknown"]>
           {[ "Format" := VStr "from exif" ]}))
  /\ (<["Software" := VStr "Unknown"]>
      (<["Camera Model" := VStr "Unknown"]>
       {[ "Format" := VStr "from exif" ]}) : dict) !! "Format"
       = (fun t => VStr (printable t))
           <$> ({[ "Format" := Worlds.ascii_tag "from exif" ]}
                : gmap string IfdTag) !! "Format".
Proof.
  assert (H : extract_exif_metadata Worlds.colliding "a.jpg"
            = Ok (<["Software" := VStr "Unknown"]>
                  (<["Camera Model" := VStr "Unknown"]>
                   {[ "Format" := VStr "from exif" ]})))
    by (vm_compute; reflexivity).
  split; [exact H|].
  refine (proj1 (exif_tags_stringified Worlds.colliding "a.jpg" []
                   {[ "Format" := Worlds.ascii_tag "from exif" ]} _ _ _ H)
            "Format" _ _ _); try reflexivity; discriminate.
Defined.

(** **** X9
    With the four GPS tags present and both conversions returning, the
    dictionary holds under ["GPS Coordinates"] the two results, latitude
    first, rendered and joined by a comma and a space. *)
Theorem exif_gps_coordinates (w : World) (image_path : string)
        (bytes : list Byte.byte) (tags : gmap string IfdTag)
        (gps_lat gps_lon lat_ref lon_ref : IfdTag) (latitude longitude : float) :
  open_rb w image_path = Ok bytes ->
  exifread_process_file w bytes = Ok tags ->
  tags !! "GPS GPSLatitude" = Some gps_lat ->
  tags !! "GPS GPSLongitude" = Some gps_lon ->
  tags !! "GPS GPSLatitudeRef" = Some lat_ref ->
  tags !! "GPS GPSLongitudeRef" = Some lon_ref ->
  convert_gps (GTag gps_lat) (printable lat_ref) = Ok latitude ->
  convert_gps (GTag gps_lon) (printable lon_ref) = Ok longitude ->
  exists md,
    extract_exif_metadata w image_path = Ok md
    /\ md !! "GPS Coordinates"
         = Some (VStr (float_str w latitude ++ ", " ++ float_str w longitude)).
Proof.
  intros Ho Hp H1 H2 H3 H4 Hla Hlo.
  rewrite (exif_after_tags w image_path bytes tags Ho Hp).
  rewrite (gps_entry_present w tags _ _ _ _ _ _ _ H1 H2 H3 H4 Hla Hlo).
  eexists. split; [reflexivity|].
  rewrite !lookup_insert_ne by discriminate. apply lookup_insert_eq.
Qed.

(** **** X10
    With one of the four GPS tags missing, the decoder returns and writes no
    ["GPS Coordinates"] entry: the key is in the dictionary only if a tag of
    that very name was read. *)
Theorem exif_gps_coordinates_absent (w : World) (image_path : string)
        (bytes : list Byte.byte) (tags : gmap string IfdTag) :
  open_rb w image_path = Ok bytes ->
  exifread_process_file w bytes = Ok tags ->
  tags !! "GPS GPSLatitude" = None \/ tags !! "GPS GPSLongitude" = None
  \/ tags !! "GPS GPSLatitudeRef" = None
  \/ tags !! "GPS GPSLongitudeRef" = None ->
  exists md,
    extract_exif_metadata w image_path = Ok md
    /\ md !! "GPS Coordinates"
         = (fun t => VStr (printable t)) <$> tags !! "GPS Coordinates".
Proof.
  intros Ho Hp Hmiss.
  rewrite (exif_after_tags w image_path bytes tags Ho Hp).
  rewrite (gps_entry_absent w tags _ Hmiss).
  eexists. split; [reflexivity|].
  rewrite !lookup_insert_ne by discriminate.
  apply lookup_stringify_tags.
Qed.

Lemma exif_gps_coordinates_witness :
  exists md,
    extract_exif_metadata MoreWorlds.located "photo.jpg" = Ok md
    /\ md !! "GPS Coordinates"
         = Some (VStr (float_str MoreWorlds.located
                         (degrees_of (quotient 12 1) (quotient 58 1)
                                     (quotient 30 1))
                       ++ ", "
                       ++ float_str MoreWorlds.located
                            (degrees_of (quotient 77 1) (quotient 35 1)
                                        (quotient 0 1)))).
Proof.
  refine (exif_gps_coordinates MoreWorlds.located "photo.jpg" []
            MoreWorlds.located_tags
            (Worlds.ratio_tag "[12, 58, 30]" [(12, 1); (58, 1); (30, 1)])
            (Worlds.ratio_tag "[77, 35, 0]" [(77, 1); (35, 1); (0, 1)])
            (Worlds.ascii_tag "N") (Worlds.ascii_tag "E") _ _ _ _ _ _ _ _ _ _);
    vm_compute; reflexivity.
Defined.

Lemma exif_gps_coordinates_absent_witness :
  exists md,
    extract_exif_metadata Worlds.sparse "blank.png" = Ok md
    /\ md !! "GPS Coordinates"
         = (fun t => VStr (printable t))
             <$> (∅ : gmap string IfdTag) !! "GPS Coordinates".
Proof.
  refine (exif_gps_coordinates_absent Worlds.sparse "blank.png" [] ∅ _ _ _).
  - reflexivity.
  - reflexivity.
  - left. apply lookup_empty.
Defined.

(** ** Further properties of the deep scanner *)

Section Splitting.

Lemma substring_all (s : string) : String.substring 0 (String.length s) s = s.
Proof. induction s as [|c s IH]; [reflexivity|]. cbn. by rewrite IH. Qed.

Lemma prefix_nil (s : string) : String.prefix "" s = true.
Proof. by destruct s. Qed.

Lemma prefix_split (sep s : string) :
  String.prefix sep s = true ->
  s = sep ++ String.substring (String.length sep)
                              (String.length s - String.length sep) s.
Proof.
  revert s. induction sep as [|a sep IH]; intros s H.
  - rewrite append_nil_l. cbn [String.length]. rewrite Nat.sub_0_r.
    symmetry. apply substring_all.
  - destruct s as [|b s]; [discriminate H|].
    cbn [String.prefix] in H. destruct (ascii_dec a b) as [->|]; [|done].
    rewrite append_cons. cbn [String.length Nat.sub String.substring].
    f_equal. by apply IH.
Qed.

Lemma prefix_app (sep rest : string) : String.prefix sep (sep ++ rest) = true.
Proof.
  induction sep as [|a sep IH]; [apply prefix_nil|].
  rewrite append_cons. cbn [String.prefix].
  by destruct (ascii_dec a a).
Qed.

Lemma split_first_eq (sep s : string) :
  split_first sep s =
    if String.prefix sep s
    then Some ("", String.substring (String.length sep)
                     (String.length s - String.length sep) s)
    else match s with
         | EmptyString => None
         | String c s' =>
             match split_first sep s' with
             | Some (a, b) => Some (String c a, b)
             | None => None
             end
         end.
Proof. by destruct s. Qed.

Lemma append_assoc (a b c : string) : (a ++ b) ++ c = a ++ b ++ c.
Proof.
  induction a as [|x a IH]; [by rewrite !append_nil_l|].
  by rewrite !append_cons, IH.
Qed.

Lemma append_not_nil (x sep y : string) : sep <> "" -> x ++ sep ++ y <> "".
Proof.
  intros Hsep. destruct x as [|c x]; [|rewrite append_cons; discriminate].
  rewrite append_nil_l. destruct sep as [|c sep]; [done|].
  rewrite append_cons. discriminate.
Qed.

(** The text before the first occurrence holds no occurrence. *)
Lemma split_first_Some (sep s a b : string) :
  sep <> "" ->
  split_first sep s = Some (a, b) ->
  s = a ++ sep ++ b /\ forall x y, a <> x ++ sep ++ y.
Proof.
  intros Hsep. revert a b. induction s as [|c s IH]; intros a b;
    rewrite split_first_eq.
  - destruct (String.prefix sep "") eqn:Hp; [|discriminate].
    intros [= <- <-]. split.
    + rewrite append_nil_l. by apply prefix_split.
    + intros x y H. by apply (append_not_nil x sep y).
  - destruct (String.prefix sep (String c s)) eqn:Hp.
    + intros [= <- <-]. split.
      * rewrite append_nil_l. by apply prefix_split.
      * intros x y H. by apply (append_not_nil x sep y).
    + destruct (split_first sep s) as [[a' b']|] eqn:Hs; [|discriminate].
      intros [= <- <-]. destruct (IH a' b' eq_refl) as [-> Hno].
      split; [by rewrite append_cons|].
      intros [|c' x] y H.
      * rewrite append_nil_l in H.
        rewrite <- append_cons, H in Hp.
        rewrite append_assoc in Hp.
        by rewrite prefix_app in Hp.
      * rewrite append_cons in H. injection H as _ H. by apply (Hno x y).
Qed.

Lemma split_first_None (sep s : string) :
  split_first sep s = None -> forall x y, s <> x ++ sep ++ y.
Proof.
  induction s as [|c s IH]; rewrite split_first_eq.
  - destruct (String.prefix sep "") eqn:Hp; [discriminate|].
    intros _ [|c x] y H; [|rewrite append_cons in H; discriminate].
    rewrite append_nil_l in H. by rewrite H, prefix_app in Hp.
  - destruct (String.prefix sep (String c s)) eqn:Hp; [discriminate|].
    destruct (split_first sep s) as [[a' b']|] eqn:Hs; [discriminate|].
    intros _ [|c' x] y H.
    + rewrite append_nil_l in H. by rewrite H, prefix_app in Hp.
    + rewrite append_cons in H. injection H as _ H. by apply (IH eq_refl x y).
Qed.

Lemma substring_after (sep rest : string) :
  String.substring (String.length sep)
                   (String.length (sep ++ rest) - String.length sep)
                   (sep ++ rest) = rest.
Proof.
  induction sep as [|a sep IH].
  - rewrite append_nil_l. cbn [String.length]. rewrite Nat.sub_0_r.
    apply substring_all.
  - rewrite append_cons. cbn [String.length Nat.sub String.substring].
    apply IH.
Qed.

(** A key without [": "], then [": "], then a value: the line splits at
    that place. *)
Lemma split_first_colon (k v : string) :
  (forall x y, k <> x ++ ": " ++ y) ->
  split_first ": " (k ++ ": " ++ v) = Some (k, v).
Proof.
  induction k as [|c k IH]; intros Hno; rewrite split_first_eq.
  - rewrite append_nil_l, prefix_app, substring_after. reflexivity.
  - assert (Hp : String.prefix ": " (String c k ++ ": " ++ v) = false).
    { rewrite append_cons. cbn [String.prefix].
      destruct (ascii_dec ":" c) as [<-|]; [|done].
      destruct k as [|c' k].
      - rewrite append_nil_l. reflexivity.
      - rewrite append_cons. cbn [String.prefix].
        destruct (ascii_dec " " c') as [<-|]; [|done].
        destruct (Hno "" k). reflexivity. }
    rewrite Hp, append_cons, IH; [reflexivity|].
    intros x y ->. by apply (Hno (String c x) y).
Qed.

End Splitting.

(** **** X11
    A line made of a key that holds no [": "], then [": "], then a value,
    splits into that key and that value, whatever the value holds. *)
Theorem split_item_inverse (key value : string) :
  (forall x y, key <> x ++ ": " ++ y) ->
  split_item (key ++ ": " ++ value) = (key, value).
Proof.
  intros Hno. unfold split_item. by rewrite split_first_colon.
Qed.

Lemma split_item_inverse_witness :
  split_item ("Duration" ++ ": " ++ "3 min: 20 sec")
    = ("Duration", "3 min: 20 sec").
Proof.
  apply (split_item_inverse "Duration" "3 min: 20 sec").
  intros x y H.
  assert (Hs : split_first ": " "Duration" = None) by reflexivity.
  exact (split_first_None ": " "Duration" Hs x y H).
Defined.

(** **** X12
    Whatever the line, the pair it splits into either rebuilds the line
    around the first [": "], with no [": "] in the key, or is the whole line
    with the value ["Unknown"], and then the line holds no [": "]. *)
Theorem split_item_rejoin (item key value : string) :
  split_item item = (key, value) ->
  (item = key ++ ": " ++ value /\ forall x y, key <> x ++ ": " ++ y)
  \/ (key = item /\ value = "Unknown" /\ forall x y, item <> x ++ ": " ++ y).
Proof.
  unfold split_item.
  destruct (split_first ": " item) as [[a b]|] eqn:Hs.
  - intros [= <- <-]. left. by apply split_first_Some.
  - intros [= <- <-]. right. split; [done|]. split; [done|].
    by apply split_first_None.
Qed.

Lemma split_item_rejoin_witness :
  ("- Comment: a: b" = "- Comment" ++ ": " ++ "a: b"
   /\ forall x y, "- Comment" <> x ++ ": " ++ y)
  \/ ("- Comment" = "- Comment: a: b" /\ "a: b" = "Unknown"
      /\ forall x y, "- Comment: a: b" <> x ++ ": " ++ y).
Proof.
  apply (split_item_rejoin "- Comment: a: b" "- Comment" "a: b").
  reflexivity.
Defined.

Section MoreDeepScanner.

(** A line whose key is not [k] leaves the entry of [k] alone. *)
Lemma foldl_store_item_other (lines : list string) (metadata : dict)
      (k : string) :
  Forall (fun item => fst (split_item item) <> k) lines ->
  foldl store_item metadata lines !! k = metadata !! k.
Proof.
  revert metadata. induction lines as [|item lines IH]; intros metadata H.
  - reflexivity.
  - apply Forall_cons in H as [Hk H]. cbn [foldl]. rewrite (IH _ H).
    unfold store_item. destruct (split_item item) as [key value].
    by apply lookup_insert_ne.
Qed.

Lemma foldl_store_item_last (l1 : list string) (item : string)
      (l2 : list string) (metadata : dict) (k v : string) :
  split_item item = (k, v) ->
  Forall (fun item' => fst (split_item item') <> k) l2 ->
  foldl store_item metadata (l1 ++ item :: l2)%list !! k = Some (VStr v).
Proof.
  intros Hitem Hl2. rewrite foldl_app. cbn [foldl].
  rewrite (foldl_store_item_other l2 _ k Hl2).
  unfold store_item. rewrite Hitem. apply lookup_insert_eq.
Qed.

Lemma foldl_store_item_strings (lines : list string) (metadata : dict) :
  (forall k v, metadata !! k = Some v -> exists s, v = VStr s) ->
  forall k v, foldl store_item metadata lines !! k = Some v ->
              exists s, v = VStr s.
Proof.
  revert metadata. induction lines as [|item lines IH]; intros metadata H.
  - exact H.
  - cbn [foldl]. apply IH. intros k v.
    unfold store_item. destruct (split_item item) as [key value].
    destruct (decide (key = k)) as [->|Hne].
    + rewrite lookup_insert_eq. intros [= <-]. by eexists.
    + rewrite lookup_insert_ne by done. apply H.
Qed.

Lemma foldl_store_item_nonempty (item : string) (lines : list string)
      (metadata : dict) :
  foldl store_item metadata (item :: lines) <> ∅.
Proof.
  destruct (exists_last (l := item :: lines)) as (l1 & last & Hsnoc);
    [discriminate|].
  intros Hempty.
  destruct (split_item last) as [k v] eqn:Hlast.
  pose proof (foldl_store_item_last l1 last [] metadata k v Hlast
                ltac:(constructor)) as H.
  rewrite <- Hsnoc, Hempty, lookup_empty in H. discriminate H.
Qed.

Variable w : World.
Variable file_path : string.

Lemma hidden_from_lines (parser : HParser) (mx : HMetadata)
      (lines : list string) :
  hachoir_createParser w file_path = Ok (Some parser) ->
  extractMetadata parser = Ok (Some mx) ->
  exportPlaintext mx = Ok (Some lines) ->
  extract_hidden_metadata w file_path = foldl store_item ∅ lines.
Proof.
  intros Hp Hx Hl. unfold extract_hidden_metadata, hidden_body.
  by rewrite Hp, Hx, Hl.
Qed.

End MoreDeepScanner.

(** **** X13
    When hachoir exports its lines, the entry of a key is the value of the
    last line with that key: later lines overwrite earlier ones. *)
Theorem hidden_last_line_wins (w : World) (file_path : string)
        (parser : HParser) (mx : HMetadata)
        (l1 : list string) (item : string) (l2 : list string)
        (key value : string) :
  hachoir_createParser w file_path = Ok (Some parser) ->
  extractMetadata parser = Ok (Some mx) ->
  exportPlaintext mx = Ok (Some (l1 ++ item :: l2)%list) ->
  split_item item = (key, value) ->
  Forall (fun item' => fst (split_item item') <> key) l2 ->
  extract_hidden_metadata w file_path !! key = Some (VStr value).
Proof.
  intros Hp Hx Hl Hitem Hl2.
  rewrite (hidden_from_lines w file_path parser mx _ Hp Hx Hl).
  by apply foldl_store_item_last.
Qed.

Lemma hidden_last_line_wins_witness :
  extract_hidden_metadata MoreWorlds.repeated "a.png" !! "- Comment"
    = Some (VStr "second").
Proof.
  refine (hidden_last_line_wins MoreWorlds.repeated "a.png" _ _
            ["Metadata:"; "- Comment: first"] "- Comment: second" []
            "- Comment" "second" _ _ _ _ _); try reflexivity.
  constructor.
Defined.

(** **** X14
    Every value of the dictionary the deep scanner returns is a string, on
    each of its paths. *)
Theorem hidden_values_are_strings (w : World) (file_path : string)
        (k : string) (v : PyVal) :
  extract_hidden_metadata w file_path !! k = Some v -> exists s, v = VStr s.
Proof.
  unfold extract_hidden_metadata.
  pose proof (hidden_body_raise_untouched w file_path ∅) as Hraise.
  assert (Hbody : forall k v, fst (hidden_body w file_path ∅) !! k = Some v ->
                              exists s, v = VStr s).
  { unfold hidden_body.
    destruct (hachoir_createParser w file_path) as [[parser|]|];
      cbn [fst]; try (intros ? ?; by rewrite lookup_empty).
    destruct (extractMetadata parser) as [[mx|]|];
      cbn [fst]; try (intros ? ?; by rewrite lookup_empty).
    destruct (exportPlaintext mx) as [[lines|]|];
      cbn [fst]; try (intros ? ?; by rewrite lookup_empty).
    apply foldl_store_item_strings. intros ? ?. by rewrite lookup_empty. }
  assert (Hret : forall d, snd (hidden_body w file_path ∅) = Returned d ->
                           d = {[ "Hidden Metadata" := VStr "Unable to parse" ]}).
  { unfold hidden_body.
    destruct (hachoir_createParser w file_path) as [[parser|]|];
      cbn [snd]; [|by intros d [= <-]|done].
    destruct (extractMetadata parser) as [[mx|]|]; cbn [snd]; [|done|done].
    by destruct (exportPlaintext mx) as [[lines|]|]. }
  destruct (hidden_body w file_path ∅) as [metadata [|d|e]];
    cbn [fst snd] in *.
  - apply Hbody.
  - rewrite (Hret d eq_refl). intros H.
    apply lookup_singleton_Some in H as [_ <-]. by eexists.
  - destruct (decide (k = "Hidden Metadata Error")) as [->|Hne].
    + rewrite lookup_insert_eq. intros [= <-]. by eexists.
    + rewrite lookup_insert_ne by done. apply Hbody.
Qed.

Lemma hidden_values_are_strings_witness :
  exists s, VStr "Unable to parse" = VStr s.
Proof.
  apply (hidden_values_are_strings Worlds.sparse "blank.png" "Hidden Metadata").
  vm_compute. reflexivity.
Defined.

(** **** X15
    The deep scanner returns the empty dictionary exactly when hachoir
    builds a parser and then finds no metadata object or exports no line;
    without a parser the result is the single entry ["Hidden Metadata"]. *)
Theorem hidden_empty_iff (w : World) (file_path : string) :
  (extract_hidden_metadata w file_path = ∅ <->
   exists parser,
     hachoir_createParser w file_path = Ok (Some parser)
     /\ (extractMetadata parser = Ok None
         \/ exists mx, extractMetadata parser = Ok (Some mx)
                       /\ exportPlaintext mx = Ok (Some [])))
  /\ (hachoir_createParser w file_path = Ok None ->
      extract_hidden_metadata w file_path
        = {[ "Hidden Metadata" := VStr "Unable to parse" ]}).
Proof.
  unfold extract_hidden_metadata, hidden_body. split; [split|].
  - destruct (hachoir_createParser w file_path) as [[parser|]|].
    + destruct (extractMetadata parser) as [[mx|]|] eqn:Hx.
      * destruct (exportPlaintext mx) as [[[|item lines]|]|] eqn:Hl.
        -- intros _. exists parser. split; [done|]. right. by exists mx.
        -- intros H. by apply foldl_store_item_nonempty in H.
        -- intros H. by apply insert_non_empty in H.
        -- intros H. by apply insert_non_empty in H.
      * intros _. exists parser. split; [done|]. by left.
      * intros H. by apply insert_non_empty in H.
    + intros H. by apply map_non_empty_singleton in H.
    + intros H. by apply insert_non_empty in H.
  - intros (parser & -> & [->|(mx & -> & ->)]); reflexivity.
  - by intros ->.
Qed.

Lemma hidden_empty_iff_witness :
  extract_hidden_metadata MoreWorlds.no_metadata "blank.png" = ∅
  /\ extract_hidden_metadata Worlds.sparse "blank.png"
       = {[ "Hidden Metadata" := VStr "Unable to parse" ]}.
Proof.
  split.
  - apply (proj1 (hidden_empty_iff MoreWorlds.no_metadata "blank.png")).
    eexists. split; [reflexivity|]. by left.
  - by apply (proj2 (hidden_empty_iff Worlds.sparse "blank.png")).
Defined.

(** ** Further properties of the header stage and of the aggregator *)

Section MoreAggregator.

Lemma update_is_Some (d other : dict) (k : string) :
  is_Some (d !! k) -> is_Some (update d other !! k).
Proof.
  intros H. rewrite lookup_update. by destruct (other !! k).
Qed.

Lemma header_stage_keeps (w : World) (image_path : string) (metadata : dict)
      (k : string) :
  is_Some (metadata !! k) ->
  is_Some (header_stage w image_path metadata !! k).
Proof.
  intros H. rewrite header_stage_union, lookup_union.
  destruct H as [v ->]. by destruct (header_stage w image_path ∅ !! k).
Qed.

Lemma length_lower (s : string) : String.length (lower s) = String.length s.
Proof. induction s as [|c s IH]; [done|]. cbn. by rewrite IH. Qed.

Lemma length_append (a b : string) :
  String.length (a ++ b) = (String.length a + String.length b)%nat.
Proof.
  induction a as [|c a IH]; [by rewrite append_nil_l|].
  rewrite append_cons. cbn [String.length]. by rewrite IH.
Qed.

Lemma append_same_length (a b a' b' : string) :
  a ++ b = a' ++ b' -> String.length b = String.length b' -> b = b'.
Proof.
  revert a'. induction a as [|c a IH]; intros [|c' a'] H Hlen.
  - by rewrite !append_nil_l in H.
  - apply (f_equal String.length) in H.
    rewrite append_nil_l, append_cons in H. cbn [String.length] in H.
    rewrite length_append in H. lia.
  - apply (f_equal String.length) in H.
    rewrite append_nil_l, append_cons in H. cbn [String.length] in H.
    rewrite length_append in H. lia.
  - rewrite !append_cons in H. injection H as _ H. by apply (IH a').
Qed.

Lemma header_stage_present (w : World) (image_path : string)
      (metadata : dict) :
  (forall k, k ∈ ["Format"; "Mode"; "Size (pixels)"; "Bit Depth";
                  "Compression"; "ICC Profile"] ->
             is_Some (header_stage w image_path metadata !! k))
  \/ is_Some (header_stage w image_path metadata !! "PIL Error").
Proof.
  unfold header_stage. destruct (Image_open w image_path) as [img|e].
  - left. intros k Hk.
    repeat (apply elem_of_cons in Hk as [->|Hk]);
      [..|by apply elem_of_nil in Hk];
      rewrite ?lookup_insert_ne by discriminate;
      rewrite lookup_insert_eq; by eexists.
  - right. rewrite lookup_insert_eq. by eexists.
Qed.

End MoreAggregator.

(** **** X16
    The header stage writes either its six image keys, and then no
    ["PIL Error"], or ["PIL Error"] alone, and then none of the six; the
    ICC entry is ["Present"] or ["None"]. *)
Theorem header_stage_either (w : World) (image_path : string)
        (metadata : dict) :
  let after := header_stage w image_path metadata in
  let image_keys :=
    ["Format"; "Mode"; "Size (pixels)"; "Bit Depth"; "Compression";
     "ICC Profile"] in
  match Image_open w image_path with
  | Ok img =>
      (forall k, k ∈ image_keys -> is_Some (after !! k))
      /\ after !! "PIL Error" = metadata !! "PIL Error"
      /\ (after !! "ICC Profile" = Some (VStr "Present")
          \/ after !! "ICC Profile" = Some (VStr "None"))
      /\ after !! "Size (pixels)"
           = Some (VStr (pretty (img_width img) ++ "x"
                         ++ pretty (img_height img)))
  | Raise e =>
      after !! "PIL Error" = Some (VStr (exn_str e))
      /\ forall k, k ∈ image_keys -> after !! k = metadata !! k
  end.
Proof.
  intros after image_keys. unfold after, header_stage.
  destruct (Image_open w image_path) as [img|e].
  - split; [|split; [|split]].
    + intros k Hk. unfold image_keys in Hk.
      repeat (apply elem_of_cons in Hk as [->|Hk]);
        [..|by apply elem_of_nil in Hk];
        rewrite ?lookup_insert_ne by discriminate;
        rewrite lookup_insert_eq; by eexists.
    + by rewrite !lookup_insert_ne by discriminate.
    + rewrite lookup_insert_eq.
      destruct (truthy _); [by left|by right].
    + rewrite !lookup_insert_ne by discriminate. apply lookup_insert_eq.
  - split; [apply lookup_insert_eq|].
    intros k Hk. unfold image_keys in Hk.
    repeat (apply elem_of_cons in Hk as [->|Hk]);
      [..|by apply elem_of_nil in Hk];
      by rewrite lookup_insert_ne by discriminate.
Qed.




(** **** X19
    A record that the aggregator returns holds the four filesystem keys,
    and with them the six image keys or ["PIL Error"]. *)
Theorem extract_minimum_content (w : World) (image_path : string) (r : dict) :
  extract_image_metadata w image_path = Ok r ->
  (forall k, k ∈ seed_keys -> is_Some (r !! k))
  /\ ((forall k, k ∈ ["Format"; "Mode"; "Size (pixels)"; "Bit Depth";
                      "Compression"; "ICC Profile"] -> is_Some (r !! k))
      \/ is_Some (r !! "PIL Error")).
Proof.
  intros Hr.
  destruct (seed w image_path) as [fs|e] eqn:Hs;
    [|by rewrite (extract_seed_raises w image_path e Hs) in Hr].
  assert (Hmono : forall k, is_Some (header_stage w image_path fs !! k) ->
                            is_Some (r !! k)).
  { intros k Hk. destruct (is_heic image_path) eqn:Hh.
    - rewrite (extract_heic w image_path fs Hs Hh) in Hr.
      injection Hr as <-. by apply update_is_Some.
    - rewrite (extract_not_heic w image_path fs Hs Hh) in Hr.
      unfold mbind, result_bind in Hr.
      destruct (extract_exif_metadata w image_path) as [exif|]; [|done].
      injection Hr as <-. by do 2 apply update_is_Some. }
  split.
  - intros k Hk. apply Hmono, header_stage_keeps.
    destruct (seed_inv w image_path fs Hs) as (size & ct & mt & H1 & H2 & H3).
    rewrite (seed_returns w image_path _ _ _ H1 H2 H3) in Hs.
    injection Hs as <-. unfold seed_keys in Hk.
    repeat (apply elem_of_cons in Hk as [->|Hk]);
      [..|by apply elem_of_nil in Hk];
      rewrite ?lookup_insert_ne by discriminate;
      rewrite lookup_insert_eq; by eexists.
  - destruct (header_stage_present w image_path fs) as [H|H].
    + left. intros k Hk. by apply Hmono, H.
    + right. by apply Hmono.
Qed.

Lemma extract_minimum_content_witness :
  is_Some
    (update (header_stage MoreWorlds.undecodable "x.heic"
               (<["Modification Time" := VStr "Thu Jan  1 00:00:00 1970"]>
                (<["Creation Time" := VStr "Thu Jan  1 00:00:00 1970"]>
                 (<["File Size (bytes)" := VInt 12]>
                  (<["File Name" := VStr "x.heic"]> ∅)))))
            (extract_hidden_metadata MoreWorlds.undecodable "x.heic")
       !! "File Name").
Proof.
  refine (proj1 (extract_minimum_content MoreWorlds.undecodable "x.heic" _ _)
            "File Name" _).
  - apply extract_heic; [|reflexivity].
    apply (seed_returns MoreWorlds.undecodable "x.heic" 12 (of_Z 0) (of_Z 0));
      reflexivity.
  - unfold seed_keys. rewrite !elem_of_cons. tauto.
Defined.

(** **** X20
    Whatever the path, every entry of the deep scanner's dictionary is in
    the record the aggregator returns: no other stage can overwrite it. *)
Theorem deep_entries_in_record (w : World) (image_path : string) (r : dict)
        (k : string) (v : PyVal) :
  extract_image_metadata w image_path = Ok r ->
  extract_hidden_metadata w image_path !! k = Some v ->
  r !! k = Some v.
Proof.
  intros Hr Hk.
  destruct (seed w image_path) as [fs|e] eqn:Hs;
    [|by rewrite (extract_seed_raises w image_path e Hs) in Hr].
  rewrite (extract_after_seed w image_path fs Hs) in Hr.
  unfold mbind, result_bind in Hr.
  destruct (exif_stage w image_path (header_stage w image_path fs))
    as [md|]; [|done].
  injection Hr as <-. by rewrite lookup_update, Hk.
Qed.

Lemma deep_entries_in_record_witness :
  update (header_stage Worlds.sparse "blank.heic"
            (<["Modification Time" := VStr "Thu Jan  1 00:00:00 1970"]>
             (<["Creation Time" := VStr "Thu Jan  1 00:00:00 1970"]>
              (<["File Size (bytes)" := VInt 2048]>
               (<["File Name" := VStr "blank.heic"]> ∅)))))
         (extract_hidden_metadata Worlds.sparse "blank.heic")
    !! "Hidden Metadata"
    = Some (VStr "Unable to parse").
Proof.
  refine (deep_entries_in_record Worlds.sparse "blank.heic" _
            "Hidden Metadata" (VStr "Unable to parse") _ _).
  - apply extract_heic; [|reflexivity].
    apply (seed_returns Worlds.sparse "blank.heic" 2048 (of_Z 0) (of_Z 0));
      reflexivity.
  - vm_compute. reflexivity.
Defined.

(** **** X21
    A filesystem entry reaches the record unchanged unless the EXIF decoder
    or the deep scanner writes the same key: the header stage never does. *)
Theorem seed_entry_survives (w : World) (image_path : string)
        (fs r : dict) (k : string) :
  seed w image_path = Ok fs ->
  extract_image_metadata w image_path = Ok r ->
  k ∈ seed_keys ->
  extract_hidden_metadata w image_path !! k = None ->
  (is_heic image_path = true
   \/ forall exif, extract_exif_metadata w image_path = Ok exif ->
                   exif !! k = None) ->
  r !! k = fs !! k.
Proof.
  intros Hs Hr Hk Hdeep Hexif.
  assert (Hheader : header_stage w image_path fs !! k = fs !! k).
  { apply header_stage_lookup_other. intros Hin.
    unfold seed_keys, header_keys in *.
    repeat (apply elem_of_cons in Hk as [->|Hk]);
      try (by apply elem_of_nil in Hk);
      repeat (apply elem_of_cons in Hin as [Hin|Hin]);
      try discriminate Hin; by apply elem_of_nil in Hin. }
  destruct (is_heic image_path) eqn:Hh.
  - rewrite (extract_heic w image_path fs Hs Hh) in Hr. injection Hr as <-.
    by rewrite lookup_update, Hdeep.
  - destruct Hexif as [|Hexif]; [done|].
    rewrite (extract_not_heic w image_path fs Hs Hh) in Hr.
    unfold mbind, result_bind in Hr.
    destruct (extract_exif_metadata w image_path) as [exif|]; [|done].
    injection Hr as <-.
    by rewrite lookup_update, Hdeep, lookup_update, (Hexif exif eq_refl).
Qed.

Lemma seed_entry_survives_witness :
  update (header_stage Worlds.colliding "a.heic"
            (<["Modification Time" := VStr "Thu Jan  1 00:00:00 1970"]>
             (<["Creation Time" := VStr "Thu Jan  1 00:00:00 1970"]>
              (<["File Size (bytes)" := VInt 2048]>
               (<["File Name" := VStr "a.heic"]> ∅)))))
         (extract_hidden_metadata Worlds.colliding "a.heic")
    !! "File Size (bytes)"
    = (<["Modification Time" := VStr "Thu Jan  1 00:00:00 1970"]>
       (<["Creation Time" := VStr "Thu Jan  1 00:00:00 1970"]>
        (<["File Size (bytes)" := VInt 2048]>
         (<["File Name" := VStr "a.heic"]> ∅))) : dict)
        !! "File Size (bytes)".
Proof.
  refine (seed_entry_survives Worlds.colliding "a.heic" _ _
            "File Size (bytes)" _ _ _ _ _).
  - apply (seed_returns Worlds.colliding "a.heic" 2048 (of_Z 0) (of_Z 0));
      reflexivity.
  - apply extract_heic; [|reflexivity].
    apply (seed_returns Worlds.colliding "a.heic" 2048 (of_Z 0) (of_Z 0));
      reflexivity.
  - unfold seed_keys. rewrite !elem_of_cons. tauto.
  - vm_compute. reflexivity.
  - left. reflexivity.
Defined.

(** **** X22
    Only the last five characters of the path decide the test: a path ending
    in five characters [ext] is a [.heic] path exactly when [ext] lowercased
    is [.heic], whatever stands before them. *)
Theorem is_heic_last_five (stem ext : string) :
  String.length ext = 5%nat ->
  is_heic (stem ++ ext) = true <-> lower ext = ".heic".
Proof.
  intros Hlen. rewrite is_heic_iff. split.
  - intros (stem' & ext' & Heq & Hext).
    assert (Hlen' : String.length ext' = 5%nat)
      by (by rewrite <- length_lower, Hext).
    rewrite (append_same_length stem ext stem' ext' Heq); [done|congruence].
  - intros Hext. by exists stem, ext.
Qed.

Lemma is_heic_last_five_witness :
  is_heic ("album.heic/" ++ "1.jpg") = true <-> lower "1.jpg" = ".heic".
Proof.
  apply (is_heic_last_five "album.heic/" "1.jpg"). reflexivity.
Defined.

(** ** The report writer and the file dialog *)

Section Report.

Variable sh : Shell.

Lemma foldl_report_line (items : list (string * PyVal)) (text : string) :
  foldl (fun text entry => text ++ report_line sh entry) text items
    = text ++ foldl (fun text entry => text ++ report_line sh entry) "" items.
Proof.
  revert text. induction items as [|entry items IH]; intros text.
  - cbn [foldl]. induction text as [|c text IHt]; [done|].
    by rewrite append_cons, <- IHt.
  - cbn [foldl]. rewrite (IH (text ++ report_line sh entry)).
    rewrite (IH ("" ++ report_line sh entry)).
    by rewrite append_nil_l, append_assoc.
Qed.

Lemma report_text_split (metadata : dict) (l1 : list (string * PyVal))
      (entry : string * PyVal) (l2 : list (string * PyVal)) :
  dict_items sh metadata = (l1 ++ entry :: l2)%list ->
  exists before after,
    report_text sh metadata = before ++ report_line sh entry ++ after.
Proof.
  intros H. unfold report_text. rewrite H, foldl_app. cbn [foldl].
  rewrite foldl_report_line.
  exists (foldl (fun text entry => text ++ report_line sh entry) "" l1),
         (foldl (fun text entry => text ++ report_line sh entry) "" l2).
  by rewrite append_assoc.
Qed.

Lemma save_after_open (metadata : dict) (output_file : string) (st : Desktop) :
  open_w sh output_file = Ok tt ->
  files (fst (save_metadata_to_file sh metadata output_file st))
    = <[output_file := report_text sh metadata]> (files st)
  /\ snd (save_metadata_to_file sh metadata output_file st)
       = os_startfile sh output_file
  /\ started (fst (save_metadata_to_file sh metadata output_file st))
       = match os_startfile sh output_file with
         | Ok _ => (started st ++ [output_file])%list
         | Raise _ => started st
         end.
Proof.
  intros Ho. unfold save_metadata_to_file. rewrite Ho.
  by destruct (os_startfile sh output_file) as [[]|e].
Qed.

End Report.



(** **** X24
    The report file is written anew by each call: after two calls on the
    same file it holds the report of the second dictionary only. *)
Theorem save_twice (sh : Shell) (first second : dict)
        (output_file : string) (st : Desktop) :
  open_w sh output_file = Ok tt ->
  let once := fst (save_metadata_to_file sh first output_file st) in
  let twice := fst (save_metadata_to_file sh second output_file once) in
  files twice = files (fst (save_metadata_to_file sh second output_file st)).
Proof.
  intros Ho once twice. unfold twice, once.
  rewrite !(proj1 (save_after_open sh _ output_file _ Ho)).
  apply insert_insert_eq.
Qed.

Lemma save_twice_witness :
  files (fst (save_metadata_to_file (MoreWorlds.helpful "photo.jpg")
                {[ "Mode" := VStr "RGB" ]} "metadata.txt"
                (fst (save_metadata_to_file (MoreWorlds.helpful "photo.jpg")
                        {[ "Format" := VStr "PNG" ]} "metadata.txt"
                        MoreWorlds.old_desk))))
    = files (fst (save_metadata_to_file (MoreWorlds.helpful "photo.jpg")
                    {[ "Mode" := VStr "RGB" ]} "metadata.txt"
                    MoreWorlds.old_desk)).
Proof.
  apply (save_twice (MoreWorlds.helpful "photo.jpg")
           {[ "Format" := VStr "PNG" ]} {[ "Mode" := VStr "RGB" ]}
           "metadata.txt" MoreWorlds.old_desk).
  reflexivity.
Defined.

(** **** X25
    Every entry of the dictionary has its line in the report: the key, a
    colon and a space, the value as [str] renders it, and a newline. *)
Theorem report_has_every_entry (sh : Shell) (metadata : dict)
        (key : string) (value : PyVal) :
  items_faithful sh ->
  metadata !! key = Some value ->
  exists before after,
    report_text sh metadata
      = before ++ (key ++ ": " ++ py_str sh value ++ newline) ++ after.
Proof.
  intros Hfaithful Hentry.
  destruct (Hfaithful metadata) as [Hnodup Hmap].
  assert (Hin : (key, value) ∈ dict_items sh metadata).
  { apply elem_of_list_to_map; [done|]. by rewrite Hmap. }
  apply list_elem_of_split in Hin as (l1 & l2 & Hsplit).
  destruct (report_text_split sh metadata l1 (key, value) l2 Hsplit)
    as (before & after & ->).
  by exists before, after.
Qed.

Lemma report_has_every_entry_witness :
  exists before after,
    report_text (MoreWorlds.helpful "photo.jpg") {[ "Format" := VStr "PNG" ]}
      = before
        ++ ("Format" ++ ": "
            ++ py_str (MoreWorlds.helpful "photo.jpg") (VStr "PNG") ++ newline)
        ++ after.
Proof.
  apply (report_has_every_entry (MoreWorlds.helpful "photo.jpg")
           {[ "Format" := VStr "PNG" ]} "Format" (VStr "PNG")).
  - intros d. split; [apply NoDup_fst_map_to_list|apply list_to_map_to_list].
  - vm_compute. reflexivity.
Defined.

Section Browse.

Variable w : World.
Variable sh : Shell.
Variable st : Desktop.

Lemma save_frame (metadata : dict) (output_file other : string) :
  other <> output_file ->
  files (fst (save_metadata_to_file sh metadata output_file st)) !! other
    = files st !! other.
Proof.
  intros Hne. unfold save_metadata_to_file.
  destruct (open_w sh output_file) as [[]|e]; [|done].
  destruct (os_startfile sh output_file) as [[]|e]; cbn [fst files];
    by apply lookup_insert_ne.
Qed.

Lemma save_started (metadata : dict) (output_file : string) :
  started (fst (save_metadata_to_file sh metadata output_file st)) = started st
  \/ started (fst (save_metadata_to_file sh metadata output_file st))
       = (started st ++ [output_file])%list.
Proof.
  unfold save_metadata_to_file.
  destruct (open_w sh output_file) as [[]|e]; [|by left].
  destruct (os_startfile sh output_file) as [[]|e]; [by right|by left].
Qed.

Lemma browse_chosen (file_path : string) :
  askopenfilename sh = file_path -> file_path <> "" ->
  browse_file w sh st
    = match extract_image_metadata w file_path with
      | Ok metadata => save_metadata_to_file sh metadata "metadata.txt" st
      | Raise e => (st, Raise e)
      end.
Proof.
  intros <- Hne. unfold browse_file.
  by rewrite (proj2 (String.eqb_neq _ _) Hne).
Qed.

End Browse.

(** **** X26
    When the chosen photograph is not a [.heic] file, can be read, and holds
    the four GPS tags with a latitude whose conversion raises [e], the
    callback of the button raises [e] and leaves the desktop as it was: no
    report is written and no viewer is started. *)
Theorem browse_malformed_gps (w : World) (sh : Shell) (st : Desktop)
        (file_path : string) (bytes : list Byte.byte)
        (tags : gmap string IfdTag)
        (gps_lat gps_lon lat_ref lon_ref : IfdTag) (e : exn) :
  askopenfilename sh = file_path -> file_path <> "" ->
  is_heic file_path = false ->
  Py.returns (seed w file_path) ->
  open_rb w file_path = Ok bytes ->
  exifread_process_file w bytes = Ok tags ->
  tags !! "GPS GPSLatitude" = Some gps_lat ->
  tags !! "GPS GPSLongitude" = Some gps_lon ->
  tags !! "GPS GPSLatitudeRef" = Some lat_ref ->
  tags !! "GPS GPSLongitudeRef" = Some lon_ref ->
  convert_gps (GTag gps_lat) (printable lat_ref) = Raise e ->
  browse_file w sh st = (st, Raise e).
Proof.
  intros Hpath Hne Hheic [fs Hseed] Ho Hp H1 H2 H3 H4 Hconv.
  rewrite (browse_chosen w sh st file_path Hpath Hne).
  rewrite (extract_not_heic w file_path fs Hseed Hheic).
  rewrite (exif_gps_raise_propagates w file_path bytes tags _ _ _ _ e
             Ho Hp H1 H2 H3 H4 Hconv).
  reflexivity.
Qed.

Lemma browse_malformed_gps_witness :
  browse_file Worlds.zero_den (MoreWorlds.helpful "photo.jpg")
              MoreWorlds.old_desk
    = (MoreWorlds.old_desk,
       Raise (Exn ZeroDivisionError "float division by zero")).
Proof.
  refine (browse_malformed_gps Worlds.zero_den (MoreWorlds.helpful "photo.jpg")
            MoreWorlds.old_desk "photo.jpg" []
            (Worlds.gps_tags "[12, 58, 0/0]" [(12, 1); (58, 1); (0, 0)])
            (Worlds.ratio_tag "[12, 58, 0/0]" [(12, 1); (58, 1); (0, 0)])
            (Worlds.ratio_tag "[77, 35, 0]" [(77, 1); (35, 1); (0, 1)])
            (Worlds.ascii_tag "N") (Worlds.ascii_tag "E") _ _ _ _ _ _ _ _ _ _ _ _);
    try (vm_compute; reflexivity).
  - discriminate.
  - eexists. apply (seed_returns Worlds.zero_den "photo.jpg" 2048 (of_Z 0)
                      (of_Z 0)); reflexivity.
Defined.

(** **** X27
    Whatever the dialog answers and whatever the extraction does, the
    callback changes no file other than [metadata.txt], and the files shown
    are those shown before, with [metadata.txt] added at most once. *)
Theorem browse_frame (w : World) (sh : Shell) (st : Desktop) (other : string) :
  other <> "metadata.txt" ->
  files (fst (browse_file w sh st)) !! other = files st !! other
  /\ (started (fst (browse_file w sh st)) = started st
      \/ started (fst (browse_file w sh st))
           = (started st ++ ["metadata.txt"])%list).
Proof.
  intros Hne. unfold browse_file.
  destruct (negb (String.eqb (askopenfilename sh) "")); [|by split; [|left]].
  destruct (extract_image_metadata w (askopenfilename sh)) as [metadata|e];
    [|by split; [|left]].
  split; [by apply save_frame|apply save_started].
Qed.

Lemma browse_frame_witness :
  files (fst (browse_file Worlds.sparse (MoreWorlds.helpful "blank.png")
                MoreWorlds.old_desk)) !! "notes.txt"
    = files MoreWorlds.old_desk !! "notes.txt".
Proof.
  refine (proj1 (browse_frame Worlds.sparse (MoreWorlds.helpful "blank.png")
                   MoreWorlds.old_desk "notes.txt" _)).
  discriminate.
Defined.


